(** * PinkSync: the sign-language translation session

  A shallow embedding of the two source files that carry the translation
  session of the front end:

  - [src/contexts/websocket-context.tsx]: the [WebSocketProvider], its
    [sendMessage], [onMessage], [offMessage] and the socket handlers;
  - [src/components/sign-language-demo.tsx]: the [SignLanguageDemo]
    component with [handleMessage], [startRecording], [stopRecording],
    [processVideo] and [processVideoHTTP].

  React state is a record, a handler is the list of [setState] calls it
  makes (committed in order), refs and browser objects are explicit fields
  of a world record, and everything asynchronous (socket events, recorder
  events, the FileReader, the HTTP response, clicks) is an event of a step
  function. Browser constructors and methods are taken to return normally,
  except where the source has a [catch] for them. *)

From Stdlib Require QArith.
From Stdlib Require Import ZArith Lia.
From stdpp Require Import base list strings.

(** ** JavaScript values *)

Module Js.

(** The values that travel in messages and sit in [any]-typed state. A
    number is kept as a rational: the code never computes with one. *)
#[local] Unset Elimination Schemes.
Inductive Value : Type :=
| Undefined
| Null
| Bool (b : bool)
| Number (q : QArith_base.Q)
| Str (s : string)
| Object (props : list (string * Value)).
#[local] Set Elimination Schemes.

(** An object, as its properties in order; keys are unique. *)
Definition Obj : Type := list (string * Value).

(** [o.k]: the property, or [undefined] when the object has none. *)
Fixpoint prop (o : Obj) (k : string) : Value :=
  match o with
  | [] => Undefined
  | (k', v) :: rest => if String.eqb k k' then v else prop rest k
  end.

(** [v === s] for a string literal [s]. *)
Definition strictEqStr (v : Value) (s : string) : bool :=
  match v with
  | Str t => String.eqb t s
  | _ => false
  end.

End Js.

(** ** [websocket-context.tsx] *)

Module WebSocketContext.
Import Js.

(** A socket object and a callback (a function object) are known by their
    identity. *)
Definition SocketId : Type := nat.
Definition Callback : Type := nat.

(** The provider's React state and its [messageCallbacks] ref, a JS [Set]:
    its elements in insertion order, without repeats. *)
Record Provider : Type := {
  socket : option SocketId;
  isConnected : bool;
  messageCallbacks : list Callback;
}.

(** What one render of the provider hands to its consumers: [sendMessage]
    of that render closes over these two values. *)
Record ContextValue : Type := {
  ctx_socket : option SocketId;
  ctx_isConnected : bool;
}.

Definition contextValue (p : Provider) : ContextValue :=
  {| ctx_socket := socket p; ctx_isConnected := isConnected p |}.

(** What was emitted, on which socket. *)
Definition Wire : Type := list (SocketId * Obj).

(** [sendMessage]: [if (socket && isConnected) socket.emit("message", { type, data })]. *)
Definition sendMessage (v : ContextValue) (type : string) (data : Value)
    (wire : Wire) : Wire :=
  match ctx_socket v with
  | Some s =>
      if ctx_isConnected v
      then wire ++ [(s, [("type", Str type); ("data", data)])]
      else wire
  | None => wire
  end.

(** [onMessage]: [messageCallbacks.current.add(callback)]. *)
Definition onMessage (callback : Callback) (callbacks : list Callback)
    : list Callback :=
  if decide (callback ∈ callbacks) then callbacks else callbacks ++ [callback].

(** [offMessage]: [messageCallbacks.current.delete(callback)]. *)
Definition offMessage (callback : Callback) (callbacks : list Callback)
    : list Callback :=
  filter (λ c, c ≠ callback) callbacks.

(** The socket's ["message"] handler:
    [messageCallbacks.current.forEach((callback) => callback(message))],
    for callbacks that act on a state [St] and leave the set alone. *)
Definition forEachCallback {St : Type} (call : Callback → Obj → St → St)
    (message : Obj) (callbacks : list Callback) (st : St) : St :=
  foldl (λ s callback, call callback message s) st callbacks.

(** The ["connect"] and ["disconnect"] handlers. *)
Definition on_connect (p : Provider) : Provider :=
  {| socket := socket p; isConnected := true;
     messageCallbacks := messageCallbacks p |}.

Definition on_disconnect (p : Provider) : Provider :=
  {| socket := socket p; isConnected := false;
     messageCallbacks := messageCallbacks p |}.

(** The registry on its own: subscriptions, removals and incoming
    messages, with a log of every call made to a callback. *)
Inductive RegistryOp : Type :=
| Subscribe (callback : Callback)
| Unsubscribe (callback : Callback)
| Deliver (message : Obj).

Definition CallLog : Type := list (Callback * Obj).

Definition logCall (callback : Callback) (message : Obj) (log : CallLog) : CallLog :=
  log ++ [(callback, message)].

Definition registry_step (st : list Callback * CallLog) (op : RegistryOp)
    : list Callback * CallLog :=
  match op with
  | Subscribe callback => (onMessage callback (fst st), snd st)
  | Unsubscribe callback => (offMessage callback (fst st), snd st)
  | Deliver message => (fst st, forEachCallback logCall message (fst st) (snd st))
  end.

Definition registry_run (ops : list RegistryOp) (st : list Callback * CallLog)
    : list Callback * CallLog :=
  foldl registry_step st ops.

End WebSocketContext.

(** ** [sign-language-demo.tsx] *)

Module SignLanguageDemo.
Import Js WebSocketContext.

(** [interface TranslationResult], and the JSON object that carries one. *)
Record TranslationResult : Type := {
  text : string;
  confidence : QArith_base.Q;
  features_detected : bool;
}.

Definition toValue (r : TranslationResult) : Value :=
  Object [("text", Str (text r)); ("confidence", Number (confidence r));
          ("features_detected", Bool (features_detected r))].

(** The five [useState] cells. [translationResult] and [error] are typed
    [TranslationResult | null] and [string | null], but what is stored is
    whatever the message or the response body holds. *)
Record State : Type := {
  isRecording : bool;
  isProcessing : bool;
  translationResult : Value;
  error : Value;
  permissionGranted : bool;
}.

(** A call of one of the five setters. *)
Inductive Update : Type :=
| SetIsRecording (b : bool)
| SetIsProcessing (b : bool)
| SetTranslationResult (v : Value)
| SetError (v : Value)
| SetPermissionGranted (b : bool).

Definition setState (s : State) (u : Update) : State :=
  match u with
  | SetIsRecording b =>
      {| isRecording := b; isProcessing := isProcessing s;
         translationResult := translationResult s; error := error s;
         permissionGranted := permissionGranted s |}
  | SetIsProcessing b =>
      {| isRecording := isRecording s; isProcessing := b;
         translationResult := translationResult s; error := error s;
         permissionGranted := permissionGranted s |}
  | SetTranslationResult v =>
      {| isRecording := isRecording s; isProcessing := isProcessing s;
         translationResult := v; error := error s;
         permissionGranted := permissionGranted s |}
  | SetError v =>
      {| isRecording := isRecording s; isProcessing := isProcessing s;
         translationResult := translationResult s; error := v;
         permissionGranted := permissionGranted s |}
  | SetPermissionGranted b =>
      {| isRecording := isRecording s; isProcessing := isProcessing s;
         translationResult := translationResult s; error := error s;
         permissionGranted := b |}
  end.

(** The setter calls of one handler, applied in the order they were made. *)
Definition commit (us : list Update) (s : State) : State := foldl setState s us.

Definition initialState : State :=
  {| isRecording := false; isProcessing := false; translationResult := Null;
     error := Null; permissionGranted := false |}.

(** [handleMessage], lines 39-49: the setter calls it makes for a message. *)
Definition handleMessage (message : Obj) : list Update :=
  if strictEqStr (prop message "type") "translation_result" then
    [SetTranslationResult (prop message "data"); SetIsProcessing false]
  else if strictEqStr (prop message "type") "partial_translation" then
    [SetTranslationResult (prop message "data")]
  else if strictEqStr (prop message "type") "error" then
    [SetError (prop message "message"); SetIsProcessing false]
  else [].

(** The [getUserMedia] promise of the mount effect: [then] and [catch]. *)
Definition permissionError : string :=
  "Camera permission required for sign language recognition".

Definition onUserMedia (granted : bool) : list Update :=
  if granted then [SetPermissionGranted true]
  else [SetError (Str permissionError)].

(** The outcome of [fetch] followed by [response.json()]: the promise
    rejects, or a response arrives with its [ok] flag and its body, [None]
    when the body is not JSON. *)
Inductive FetchOutcome : Type :=
| Rejected
| Response (ok : bool) (json : option Value).

Definition serviceError : string :=
  "Translation service unavailable. Please try again.".

(** [processVideoHTTP] after the [await]: [try], [catch] and [finally]. *)
Definition processVideoHTTP_settled (o : FetchOutcome) : list Update :=
  match o with
  | Response true (Some result) =>
      [SetTranslationResult result; SetIsProcessing false]
  | _ => [SetError (Str serviceError); SetIsProcessing false]
  end.

(** The [catch] of [processVideo]. *)
Definition processingError : string := "Failed to process video".

Definition processVideo_catch : list Update :=
  [SetError (Str processingError); SetIsProcessing false].

(** *** Refs, browser objects and the world around the component *)

Definition RecorderId : Type := nat.
Definition Blob : Type := string.

(** A [MediaRecorder]: recording, or stopped with its [dataavailable] and
    [stop] events still to be delivered, or inactive. *)
Inductive RecorderState : Type := Recording | Stopping | Inactive.

(** [webcamRef.current?.stream] (is there one), [mediaRecorderRef.current]
    and [recordedChunks.current]. *)
Record Refs : Type := {
  webcamStream : bool;
  mediaRecorderRef : option RecorderId;
  recordedChunks : list Blob;
}.

(** [process.env.NEXT_PUBLIC_API_URL] and
    [localStorage.getItem("pinksync_token")]. *)
Record Env : Type := {
  NEXT_PUBLIC_API_URL : string;
  pinksync_token : option string;
}.

Record Request : Type := {
  url : string;
  method : string;
  headers : list (string * string);
  body : Obj;
}.

(** The component instance in its environment.

    [startRecording] is [useCallback(..., [])]: React keeps the function of
    the first render, and with it the [processVideo], [isConnected] and
    [sendMessage] that render saw. [closure] is that context value; it is
    set when the component mounts and no step changes it. [handler] is the
    identity of the [handleMessage] that is subscribed at the moment.
    [recorders] are the [MediaRecorder] objects made so far, [reads] the
    blobs a FileReader is reading, [wire] what was emitted on sockets and
    [fetches] the HTTP requests in flight, oldest first. *)
Record World : Type := {
  env : Env;
  state : State;
  refs : Refs;
  closure : ContextValue;
  handler : Callback;
  provider : Provider;
  recorders : list RecorderState;
  reads : list Blob;
  wire : Wire;
  fetches : list Request;
}.

Definition with_state (s : State) (w : World) : World :=
  {| env := env w; state := s; refs := refs w; closure := closure w;
     handler := handler w; provider := provider w; recorders := recorders w;
     reads := reads w; wire := wire w; fetches := fetches w |}.

Definition with_refs (r : Refs) (w : World) : World :=
  {| env := env w; state := state w; refs := r; closure := closure w;
     handler := handler w; provider := provider w; recorders := recorders w;
     reads := reads w; wire := wire w; fetches := fetches w |}.

Definition with_subscription (h : Callback) (p : Provider) (w : World) : World :=
  {| env := env w; state := state w; refs := refs w; closure := closure w;
     handler := h; provider := p; recorders := recorders w;
     reads := reads w; wire := wire w; fetches := fetches w |}.

Definition with_recorders (rs : list RecorderState) (w : World) : World :=
  {| env := env w; state := state w; refs := refs w; closure := closure w;
     handler := handler w; provider := provider w; recorders := rs;
     reads := reads w; wire := wire w; fetches := fetches w |}.

Definition with_reads (bs : list Blob) (w : World) : World :=
  {| env := env w; state := state w; refs := refs w; closure := closure w;
     handler := handler w; provider := provider w; recorders := recorders w;
     reads := bs; wire := wire w; fetches := fetches w |}.

Definition with_wire (ws : Wire) (w : World) : World :=
  {| env := env w; state := state w; refs := refs w; closure := closure w;
     handler := handler w; provider := provider w; recorders := recorders w;
     reads := reads w; wire := ws; fetches := fetches w |}.

Definition with_fetches (fs : list Request) (w : World) : World :=
  {| env := env w; state := state w; refs := refs w; closure := closure w;
     handler := handler w; provider := provider w; recorders := recorders w;
     reads := reads w; wire := wire w; fetches := fs |}.

(** *** The callbacks of the component *)

(** [startRecording], lines 58-84. The new recorder is the next object of
    the store; nothing is done to the recorder the ref held before. *)
Definition startRecording (w : World) : World :=
  if negb (webcamStream (refs w)) then w
  else
    let mediaRecorder := length (recorders w) in
    with_recorders (recorders w ++ [Recording])
      (with_refs {| webcamStream := webcamStream (refs w);
                    mediaRecorderRef := Some mediaRecorder;
                    recordedChunks := [] |}
         (with_state
            (commit [SetError Null; SetTranslationResult Null; SetIsRecording true]
               (state w))
            w)).

(** [mediaRecorder.stop()]: a recording recorder stops and owes its events. *)
Definition stop (r : RecorderId) (rs : list RecorderState) : list RecorderState :=
  match rs !! r with
  | Some Recording => <[r := Stopping]> rs
  | _ => rs
  end.

(** [stopRecording], lines 86-92. *)
Definition stopRecording (w : World) : World :=
  match mediaRecorderRef (refs w) with
  | Some r =>
      if isRecording (state w) then
        with_recorders (stop r (recorders w))
          (with_state (commit [SetIsRecording false; SetIsProcessing true] (state w)) w)
      else w
  | None => w
  end.

(** [mediaRecorder.ondataavailable], lines 71-75. *)
Definition ondataavailable (data : Blob) (w : World) : World :=
  if decide (0 < String.length data) then
    with_refs {| webcamStream := webcamStream (refs w);
                 mediaRecorderRef := mediaRecorderRef (refs w);
                 recordedChunks := recordedChunks (refs w) ++ [data] |} w
  else w.

(** The body both channels carry. *)
Definition translationRequest (videoData : Value) : Obj :=
  [("video_data", videoData); ("source_language", Str "ASL");
   ("target_language", Str "en")].

(** [processVideoHTTP] up to its [await]: the request that [fetch] issues. *)
Definition fetchRequest (e : Env) (videoData : Value) : Request :=
  {| url := NEXT_PUBLIC_API_URL e +:+ "/api/translation/sign-to-text";
     method := "POST";
     headers := [("Content-Type", "application/json");
                 ("Authorization", "Bearer " +:+ default "null" (pinksync_token e))];
     body := translationRequest videoData |}.

Definition processVideoHTTP (videoData : Value) (w : World) : World :=
  with_fetches (fetches w ++ [fetchRequest (env w) videoData]) w.

(** [reader.onloadend], lines 98-112, with the [isConnected] and the
    [sendMessage] of the closure. *)
Definition onloadend (base64data : Value) (w : World) : World :=
  if ctx_isConnected (closure w) then
    with_wire
      (sendMessage (closure w) "translation_request"
         (Object (translationRequest base64data)) (wire w))
      w
  else processVideoHTTP base64data w.

(** [processVideo], lines 94-118: the read is started, or the synchronous
    part throws and the [catch] runs. *)
Definition processVideo (throws : bool) (videoBlob : Blob) (w : World) : World :=
  if throws then with_state (commit processVideo_catch (state w)) w
  else with_reads (reads w ++ [videoBlob]) w.

(** [mediaRecorder.onstop], lines 77-80. *)
Definition onstop (throws : bool) (w : World) : World :=
  processVideo throws (String.concat "" (recordedChunks (refs w))) w.

(** The effect of lines 31-56 runs again when [onMessage] and [offMessage]
    change, which they do at every render of the provider: the cleanup
    removes the old [handleMessage], the effect adds a new one. *)
Definition resubscribe (p : Provider) (w : World) : World :=
  with_subscription (S (handler w))
    {| socket := socket p; isConnected := isConnected p;
       messageCallbacks :=
         onMessage (S (handler w)) (offMessage (handler w) (messageCallbacks p)) |}
    w.

(** The component mounts under a provider. *)
Definition mount (e : Env) (p : Provider) (stream : bool) : World :=
  {| env := e; state := initialState;
     refs := {| webcamStream := stream; mediaRecorderRef := None;
                recordedChunks := [] |};
     closure := contextValue p; handler := 0;
     provider := {| socket := socket p; isConnected := isConnected p;
                    messageCallbacks := onMessage 0 (messageCallbacks p) |};
     recorders := []; reads := []; wire := []; fetches := [] |}.

(** *** What is rendered, lines 148-239 *)

(** The Start button exists when permission is granted and nothing is
    being recorded, and it is [disabled={isProcessing}]. *)
Definition startEnabled (s : State) : bool :=
  permissionGranted s && negb (isRecording s) && negb (isProcessing s).

(** The Stop button takes its place while recording. *)
Definition stopEnabled (s : State) : bool :=
  permissionGranted s && isRecording s.

(** The two operations the component offers to its user. *)
Inductive Operation : Type := StartRecording | StopRecording.

Definition invoke (op : Operation) (w : World) : World :=
  match op with
  | StartRecording => startRecording w
  | StopRecording => stopRecording w
  end.

(** *** Events *)

(** What can happen to a mounted component, each with what the browser or
    the service supplies: a click on a button, the [dataavailable] and
    [stop] events of a recorder (with whether the synchronous part of
    [processVideo] throws), the end of a FileReader read with its result,
    the settling of the oldest [fetch] in flight, the socket's [connect],
    [disconnect] and [message] events, the settling of [getUserMedia], and
    the passing of time, which no handler of the component observes. *)
Inductive Event : Type :=
| ClickStart
| ClickStop
| DataAvailable (r : RecorderId) (data : Blob)
| RecorderStopped (r : RecorderId) (throws : bool)
| ReaderLoaded (result : Value)
| FetchSettled (o : FetchOutcome)
| SocketConnect
| SocketDisconnect
| SocketMessage (message : Obj)
| UserMedia (granted : bool)
| Tick.

(** One event, handled to completion. A click reaches its callback only
    when the button is rendered and enabled. A recorder delivers its events
    once it has been stopped. The component is the only subscriber of the
    repository, so every callback of the set is one of its
    [handleMessage]s. *)
Definition step (w : World) (e : Event) : World :=
  match e with
  | ClickStart => if startEnabled (state w) then startRecording w else w
  | ClickStop => if stopEnabled (state w) then stopRecording w else w
  | DataAvailable r data =>
      match recorders w !! r with
      | Some Stopping => ondataavailable data w
      | _ => w
      end
  | RecorderStopped r throws =>
      match recorders w !! r with
      | Some Stopping => onstop throws (with_recorders (<[r := Inactive]> (recorders w)) w)
      | _ => w
      end
  | ReaderLoaded result =>
      match reads w with
      | _ :: rest => onloadend result (with_reads rest w)
      | [] => w
      end
  | FetchSettled o =>
      match fetches w with
      | _ :: rest =>
          with_state (commit (processVideoHTTP_settled o) (state w))
            (with_fetches rest w)
      | [] => w
      end
  | SocketConnect => resubscribe (on_connect (provider w)) w
  | SocketDisconnect => resubscribe (on_disconnect (provider w)) w
  | SocketMessage message =>
      with_state
        (forEachCallback (λ _ m s, commit (handleMessage m) s) message
           (messageCallbacks (provider w)) (state w))
        w
  | UserMedia granted => with_state (commit (onUserMedia granted) (state w)) w
  | Tick => w
  end.

Definition run (es : list Event) (w : World) : World := foldl step w es.

End SignLanguageDemo.

(** * Properties of the session *)

Import Js WebSocketContext SignLanguageDemo.

(** ** Vocabulary of the statements *)

(** Messages handed to [handleMessage] one after the other. *)
Definition deliver (messages : list Obj) (s : State) : State :=
  foldl (λ s m, commit (handleMessage m) s) s messages.

Definition isPartial (m : Obj) : Prop := prop m "type" = Str "partial_translation".
Definition isFinal (m : Obj) : Prop := prop m "type" = Str "translation_result".
Definition isError (m : Obj) : Prop := prop m "type" = Str "error".

(** A session is active while it records or awaits its result. *)
Definition active (s : State) : bool := isRecording s || isProcessing s.
Definition idle (s : State) : Prop := isRecording s = false ∧ isProcessing s = false.
Definition awaiting (s : State) : Prop := isRecording s = false ∧ isProcessing s = true.

(** A message of a given type carrying a result, and the state of a session
    that awaits its result. *)
Definition resultMessage (type : string) (r : TranslationResult) : Obj :=
  [("type", Str type); ("data", toValue r)].

Definition awaitingState : State :=
  {| isRecording := false; isProcessing := true; translationResult := Null;
     error := Null; permissionGranted := true |}.

Definition hello : TranslationResult :=
  {| text := "hello"; confidence := QArith_base.Qmake 2 5; features_detected := false |}.
Definition helloWorld : TranslationResult :=
  {| text := "hello world"; confidence := QArith_base.Qmake 7 10;
     features_detected := false |}.
Definition helloWorldFinal : TranslationResult :=
  {| text := "hello world"; confidence := QArith_base.Qmake 19 20;
     features_detected := true |}.

(** A final result that names the session it belongs to. *)
Definition taggedFinal (session : string) (r : TranslationResult) : Obj :=
  ("session_id", Str session) :: resultMessage "translation_result" r.

(** No recorder captures beside the one the ref holds, and the component
    never records and awaits a result at once. *)
Definition single_session (w : World) : Prop :=
  (isRecording (state w) = true → isProcessing (state w) = false) ∧
  (∀ r, recorders w !! r = Some Recording →
        isRecording (state w) = true ∧ mediaRecorderRef (refs w) = Some r).

(** Events that deliver neither a result nor a failure. *)
Definition quiet (e : Event) : bool :=
  match e with
  | SocketMessage _ | FetchSettled _ | RecorderStopped _ true | UserMedia false => false
  | _ => true
  end.


(** The wait of a session is bounded by [bound] ticks when, that many ticks
    later and nothing else delivered, the session has failed. *)
Definition timesOutWithin (bound : nat) (w : World) : Prop :=
  isProcessing (state (run (replicate bound Tick) w)) = false ∧
  error (state (run (replicate bound Tick) w)) ≠ Null.

(** *** Worlds used as examples *)

Definition demoEnv : Env :=
  {| NEXT_PUBLIC_API_URL := "https://api.pinksync.test"; pinksync_token := Some "t0" |}.

(** A provider whose socket exists and is still connecting, and one whose
    socket is connected. *)
Definition connecting : Provider :=
  {| socket := Some 0; isConnected := false; messageCallbacks := [] |}.
Definition connected : Provider :=
  {| socket := Some 0; isConnected := true; messageCallbacks := [] |}.

Definition clip : Value := Str "data:video/webm;base64,Y2xpcA==".

(** Permission granted and Start clicked, under a connected provider. *)
Definition capturingWorld : World :=
  run [UserMedia true; ClickStart] (mount demoEnv connected true).

(** Then Stop clicked, the clip read and sent on the socket. *)
Definition awaitingWorld : World :=
  run [ClickStop; DataAvailable 0 "clip"; RecorderStopped 0 false; ReaderLoaded clip]
    capturingWorld.

(** Mounted while the socket was connecting; the socket connects, then
    Start is clicked. *)
Definition startedOnline : World :=
  run [UserMedia true; SocketConnect; ClickStart] (mount demoEnv connecting true).

(** The connection drops while recording; Stop is clicked and the clip read. *)
Definition sentAfterDrop : World :=
  run [SocketDisconnect; ClickStop; DataAvailable 0 "clip";
       RecorderStopped 0 false; ReaderLoaded clip] startedOnline.

(** ** More of JavaScript *)

Module JsOps.
Import Js.

(** [!!v]: [undefined], [null], [false], zero and the empty string are
    falsy. *)
Definition truthy (v : Value) : bool :=
  match v with
  | Undefined | Null => false
  | Bool b => b
  | Number q => negb (Z.eqb (QArith_base.Qnum q) 0)
  | Str s => negb (String.eqb s "")
  | Object _ => true
  end.

(** [a || b]. *)
Definition orElse (a b : Value) : Value := if truthy a then a else b.

(** [v.k] on any value: a TypeError ([None]) on [null] and [undefined],
    the property on an object, [undefined] on the other primitives (for
    the keys the code reads, which no primitive has). *)
Definition member (v : Value) (k : string) : option Value :=
  match v with
  | Undefined | Null => None
  | Object props => Some (prop props k)
  | _ => Some Undefined
  end.


(** [{ ...prev, [key]: value }], and [prev[key] = value]: the key keeps its
    place when [prev] has it, and is added at the end when not. *)
Fixpoint withProp (prev : Obj) (key : string) (value : Value) : Obj :=
  match prev with
  | [] => [(key, value)]
  | (k, v) :: rest =>
      if String.eqb key k then (key, value) :: rest
      else (k, v) :: withProp rest key value
  end.

End JsOps.

(** ** Class lists *)

Module Dom.
Import Js JsOps.

(** [classList.add] and [classList.remove]. *)
Definition add (token : string) (tokens : list string) : list string :=
  if decide (token ∈ tokens) then tokens else tokens ++ [token].

Definition remove (token : string) (tokens : list string) : list string :=
  filter (λ t, t ≠ token) tokens.

(** [if (flag) el.classList.add(token) else el.classList.remove(token)]. *)
Definition setClass (flag : Value) (token : string) (tokens : list string)
    : list string :=
  if truthy flag then add token tokens else remove token tokens.

End Dom.

(** ** The rest of [SignLanguageDemo] *)

Module SignLanguageDemoView.
Import Js JsOps WebSocketContext SignLanguageDemo.

(** What the component renders, lines 148-300: the camera-access card
    while permission is not granted ([None] of [render]), and otherwise the
    demo with its recording indicator, its processing overlay, one of the
    two buttons (Start with its [disabled] flag, or Stop), the result panel
    when [translationResult] is truthy, with the text it shows
    ([translationResult.text || "Processing..."]) and whether the line
    about detected features is there, and the error panel when [error] is
    truthy. The confidence badge, which rounds a floating-point product, is
    not part of the view. *)
Inductive Control : Type :=
| StartButton (disabled : bool)
| StopButton.

Record ResultPanel : Type := {
  shownText : Value;
  featuresLine : bool;
}.

Record View : Type := {
  recordingIndicator : bool;
  processingOverlay : bool;
  control : Control;
  resultPanel : option ResultPanel;
  errorPanel : option Value;
}.

(** The panel of a truthy [translationResult]; a truthy value is neither
    [null] nor [undefined], so reading its properties does not throw. *)
Definition panelOf (translationResult : Value) : ResultPanel :=
  {| shownText :=
       orElse (default Undefined (member translationResult "text"))
         (Str "Processing...");
     featuresLine :=
       truthy (default Undefined (member translationResult "features_detected")) |}.

Definition render (s : State) : option View :=
  if negb (permissionGranted s) then None
  else
    Some {| recordingIndicator := isRecording s;
            processingOverlay := isProcessing s;
            control := if negb (isRecording s) then StartButton (isProcessing s)
                       else StopButton;
            resultPanel := if truthy (translationResult s)
                           then Some (panelOf (translationResult s))
                           else None;
            errorPanel := if truthy (error s) then Some (error s) else None |}.

(** The cleanup of the effect of lines 31-56 when the component unmounts:
    [offMessage(handleMessage)]. *)
Definition unmount (w : World) : World :=
  with_subscription (handler w)
    {| socket := socket (provider w); isConnected := isConnected (provider w);
       messageCallbacks := offMessage (handler w) (messageCallbacks (provider w)) |}
    w.

(** One recording from the click on Start to the [stop] event of its
    recorder [r], with the chunks the recorder delivers in between. *)
Definition recording (r : RecorderId) (chunks : list Blob) : list Event :=
  ClickStart :: ClickStop :: map (DataAvailable r) chunks ++ [RecorderStopped r false].

(** The chunks that [ondataavailable] keeps. *)
Definition kept (chunks : list Blob) : list Blob :=
  filter (λ data, 0 < String.length data) chunks.

End SignLanguageDemoView.

Import JsOps SignLanguageDemoView.

(** ** [auth-context.tsx] *)

(** The [AuthProvider] that [WebSocketProvider] reads through [useAuth].
    Its source follows the background script in
    [src/browser-extension/background.js]; the line numbers below are those
    of that file. *)
Module AuthContext.
Import Js JsOps SignLanguageDemo.

(** The two [useState] cells, the ["pinksync_token"] entry of
    [localStorage] and the routes given to [router.push]. A string that was
    made from a value is kept as that value: the entry [Some v] is the
    string [String(v)], and so are the token of a header and the message of
    an [Error]. *)
Record Auth : Type := {
  user : Value;
  isLoading : bool;
  token : option Value;
  pushed : list string;
}.

Definition initialAuth (stored : option Value) : Auth :=
  {| user := Null; isLoading := true; token := stored; pushed := [] |}.

(** [const isAuthenticated = !!user]. *)
Definition isAuthenticated (a : Auth) : bool := truthy (user a).

(** Is [String(v)] a truthy string, that is, not the empty one. *)
Definition nonEmptyText (v : Value) : bool :=
  match v with
  | Str s => negb (String.eqb s "")
  | _ => true
  end.

(** A call of [fetch]: the path after [NEXT_PUBLIC_API_URL], the method,
    the token of the [Authorization] header and the value given to
    [JSON.stringify] for the body, when there are any. *)
Record Call : Type := {
  path : string;
  verb : string;
  bearer : option Value;
  payload : option Value;
}.

(** What an [async] function of the provider ends with. *)
Inductive Thrown : Type :=
| FetchFailed
| BodyUnreadable
| TypeError
| Error (message : Value).

Inductive Completion : Type :=
| Resolved
| Threw (e : Thrown).

Definition setIsLoading (b : bool) (a : Auth) : Auth :=
  {| user := user a; isLoading := b; token := token a; pushed := pushed a |}.

Definition removeToken (a : Auth) : Auth :=
  {| user := user a; isLoading := isLoading a; token := None; pushed := pushed a |}.

Definition verifyCall (t : Value) : Call :=
  {| path := "/api/auth/verify"; verb := "GET"; bearer := Some t; payload := None |}.

(** The effect of lines 203-211, run once when the provider mounts. *)
Definition onMount (a : Auth) : Auth * list Call :=
  match token a with
  | Some t => if nonEmptyText t then (a, [verifyCall t]) else (setIsLoading false a, [])
  | None => (setIsLoading false a, [])
  end.

(** [verifyToken], lines 213-233, after its [fetch] has settled. *)
Definition verifyToken_settled (o : FetchOutcome) (a : Auth) : Auth :=
  setIsLoading false
    match o with
    | Response true (Some userData) =>
        match member userData "user" with
        | Some u =>
            {| user := u; isLoading := isLoading a; token := token a;
               pushed := pushed a |}
        | None => removeToken a
        end
    | _ => removeToken a
    end.

(** The [throw new Error(error.detail || failure)] of a response that is
    not ok, after [await response.json()]. *)
Definition refusal (failure : string) (json : option Value) : Thrown :=
  match json with
  | None => BodyUnreadable
  | Some error =>
      match member error "detail" with
      | None => TypeError
      | Some detail => Error (orElse detail (Str failure))
      end
  end.

(** [login], lines 235-259, and [loginBiometric], lines 261-285, after
    their [fetch] has settled: the two differ in the call they make and in
    the text of the failure. *)
Definition signedIn (failure : string) (o : FetchOutcome) (a : Auth)
    : Auth * Completion :=
  match o with
  | Rejected => (a, Threw FetchFailed)
  | Response false json => (a, Threw (refusal failure json))
  | Response true None => (a, Threw BodyUnreadable)
  | Response true (Some data) =>
      match member data "access_token", member data "user" with
      | Some access_token, Some u =>
          ({| user := u; isLoading := isLoading a; token := Some access_token;
              pushed := pushed a ++ ["/dashboard"] |}, Resolved)
      | _, _ => (a, Threw TypeError)
      end
  end.

Definition loginCall (email password : Value) : Call :=
  {| path := "/api/auth/login"; verb := "POST"; bearer := None;
     payload := Some (Object [("email", email); ("password", password)]) |}.

Definition login_settled : FetchOutcome → Auth → Auth * Completion :=
  signedIn "Login failed".

Definition loginBiometricCall (videoData : Value) : Call :=
  {| path := "/api/auth/biometric-login"; verb := "POST"; bearer := None;
     payload := Some (Object [("video_data", videoData)]) |}.

Definition loginBiometric_settled : FetchOutcome → Auth → Auth * Completion :=
  signedIn "Biometric login failed".

(** [register], lines 287-307: the call it makes, and what follows the
    response: an error, or the call of [login] with the [email] and the
    [password] of [userData]. *)
Definition registerCall (userData : Value) : Call :=
  {| path := "/api/auth/register"; verb := "POST"; bearer := None;
     payload := Some userData |}.

Definition register_settled (userData : Value) (o : FetchOutcome) : Thrown + Call :=
  match o with
  | Rejected => inl FetchFailed
  | Response false json => inl (refusal "Registration failed" json)
  | Response true _ =>
      match member userData "email", member userData "password" with
      | Some email, Some password => inr (loginCall email password)
      | _, _ => inl TypeError
      end
  end.

(** [register] from the first response to its end, with the response to
    the login it may make: the state, how it ends and the calls made after
    the first. *)
Definition register_run (userData : Value) (o1 o2 : FetchOutcome) (a : Auth)
    : Auth * Completion * list Call :=
  match register_settled userData o1 with
  | inl e => (a, Threw e, [])
  | inr call => (login_settled o2 a, [call])
  end.

(** [logout], lines 309-313. *)
Definition logout (a : Auth) : Auth :=
  {| user := Null; isLoading := isLoading a; token := None;
     pushed := pushed a ++ ["/"] |}.

(** [refreshToken], lines 315-335: the call it makes, if any, and what it
    does when the call has settled. It never throws. *)
Definition refreshCall (t : Value) : Call :=
  {| path := "/api/auth/refresh"; verb := "POST"; bearer := Some t; payload := None |}.

Definition refreshToken_start (a : Auth) : option Call :=
  match token a with
  | Some t => if nonEmptyText t then Some (refreshCall t) else None
  | None => None
  end.

Definition refreshToken_settled (o : FetchOutcome) (a : Auth) : Auth :=
  match o with
  | Rejected => logout a
  | Response false _ => a
  | Response true None => logout a
  | Response true (Some data) =>
      match member data "access_token" with
      | Some access_token =>
          {| user := user a; isLoading := isLoading a; token := Some access_token;
             pushed := pushed a |}
      | None => logout a
      end
  end.

End AuthContext.

(** ** The effect of [WebSocketProvider] *)

(** Lines 24-56 of [websocket-context.tsx]: the effect that opens a socket
    for the signed-in user, and its cleanup. *)
Module WebSocketLifecycle.
Import Js JsOps WebSocketContext.

Inductive SocketState : Type := Open | Closed.

(** The provider, the sockets that [io] has made so far, and the socket
    that the cleanup of the last run of the effect will close, if that run
    returned a cleanup. *)
Record Net : Type := {
  provider : Provider;
  sockets : list SocketState;
  cleanup : option SocketId;
}.

Definition initialNet : Net :=
  {| provider := {| socket := None; isConnected := false; messageCallbacks := [] |};
     sockets := []; cleanup := None |}.

(** The cleanup: [newSocket.close(); setSocket(null); setIsConnected(false)]. *)
Definition runCleanup (n : Net) : Net :=
  match cleanup n with
  | Some s =>
      {| provider := {| socket := None; isConnected := false;
                        messageCallbacks := messageCallbacks (provider n) |};
         sockets := <[s := Closed]> (sockets n);
         cleanup := None |}
  | None => n
  end.

(** The body of the effect: [if (isAuthenticated && user)], with
    [isAuthenticated = !!user], a new socket is made and stored. *)
Definition runEffect (user : Value) (n : Net) : Net :=
  if truthy user then
    {| provider := {| socket := Some (length (sockets n));
                      isConnected := isConnected (provider n);
                      messageCallbacks := messageCallbacks (provider n) |};
       sockets := sockets n ++ [Open];
       cleanup := Some (length (sockets n)) |}
  else n.

(** What happens to the provider: the user of [useAuth] changes (the
    effect is cleaned up and run again), the provider unmounts, or a socket
    that is open fires [connect] or [disconnect]. A socket that was closed
    fires nothing more. *)
Inductive NetEvent : Type :=
| UserChanged (user : Value)
| Unmounted
| Connect (s : SocketId)
| Disconnect (s : SocketId).

Definition withProvider (p : Provider) (n : Net) : Net :=
  {| provider := p; sockets := sockets n; cleanup := cleanup n |}.

Definition netStep (n : Net) (e : NetEvent) : Net :=
  match e with
  | UserChanged user => runEffect user (runCleanup n)
  | Unmounted => runCleanup n
  | Connect s =>
      match sockets n !! s with
      | Some Open => withProvider (on_connect (provider n)) n
      | _ => n
      end
  | Disconnect s =>
      match sockets n !! s with
      | Some Open => withProvider (on_disconnect (provider n)) n
      | _ => n
      end
  end.

Definition netRun (es : list NetEvent) (n : Net) : Net := foldl netStep n es.

(** The provider mounts with the user it finds and lives through events. *)
Definition lifetime (user : Value) (es : list NetEvent) : Net :=
  netRun es (runEffect user initialNet).

(** The socket of the provider is the one the cleanup will close, it is
    the only open socket, and the provider is connected only while it has
    one. *)
Definition netInv (n : Net) : Prop :=
  cleanup n = socket (provider n) ∧
  (∀ s, sockets n !! s = Some Open ↔ socket (provider n) = Some s) ∧
  (isConnected (provider n) = true → is_Some (socket (provider n))).

End WebSocketLifecycle.

(** ** [accessibility-overlay.tsx] *)

Module AccessibilityOverlay.
Import Js JsOps Dom.

(** The settings object: typed [AccessibilitySettings], at run time what
    the state holds, read by key. *)
Definition defaultSettings : Obj :=
  [("highContrast", Bool false); ("fontSize", Number (QArith_base.Qmake 16 1));
   ("reducedMotion", Bool false); ("screenReader", Bool false);
   ("focusIndicators", Bool true); ("colorBlindSupport", Bool false)].

(** [document.documentElement]: the tokens of its [classList] in order,
    and the values whose text, followed by "px", was assigned to
    [style.fontSize], oldest first. *)
Record Root : Type := {
  classList : list string;
  fontSizeWrites : list Value;
}.

(** [applySettings], lines 48-81. *)
Definition applySettings (newSettings : Obj) (root : Root) : Root :=
  {| classList :=
       setClass (prop newSettings "colorBlindSupport") "colorblind-support"
         (setClass (prop newSettings "focusIndicators") "enhanced-focus"
            (setClass (prop newSettings "reducedMotion") "reduce-motion"
               (setClass (prop newSettings "highContrast") "high-contrast"
                  (classList root))));
     fontSizeWrites := fontSizeWrites root ++ [prop newSettings "fontSize"] |}.

(** [updateSetting], lines 83-88, and [resetSettings], lines 90-100, as the
    new state they set. *)
Definition updateSetting (key : string) (value : Value) (prev : Obj) : Obj :=
  withProp prev key value.

Definition resetSettings : Obj := defaultSettings.

(** The settings that [applySettings] turns into classes, with the class
    of each. *)
Definition classOf : list (string * string) :=
  [("highContrast", "high-contrast"); ("reducedMotion", "reduce-motion");
   ("focusIndicators", "enhanced-focus"); ("colorBlindSupport", "colorblind-support")].

End AccessibilityOverlay.

(** ** [browser-extension/popup.js] *)

Module PinkSyncPopup.
Import Js JsOps Dom.

(** The settings of the constructor, lines 4-10, which are those of
    [resetSettings], lines 134-140. *)
Definition defaults : Obj :=
  [("highContrast", Bool false); ("fontSize", Number (QArith_base.Qmake 16 1));
   ("reducedMotion", Bool false); ("focusIndicators", Bool true);
   ("signLanguageOverlay", Bool false)].

(** The toggle switches of [setupEventListeners] and [updateUI]. *)
Definition switches : list string :=
  ["highContrast"; "reducedMotion"; "focusIndicators"; "signLanguageOverlay"].

(** [{ ...a, ...b }] for two objects. *)
Definition spread (a b : Obj) : Obj :=
  foldl (λ acc kv, withProp acc (fst kv) (snd kv)) a b.

(** Does the object have the key. *)
Definition hasKey (o : Obj) (k : string) : bool :=
  existsb (λ kv, String.eqb k (fst kv)) o.

(** The popup: [this.settings]; the [pinkSyncSettings] entry of
    [chrome.storage.sync]; the writes to it that are in flight, each with
    the settings as they were when [saveSettings] was called; the
    [APPLY_SETTINGS] messages sent so far, with their tab; the class list
    of each switch element of the page, by its id; and the value last
    shown by the font-size slider and its label. Writes settle in the
    order they were made. *)
Record Popup : Type := {
  settings : Obj;
  stored : option Obj;
  writes : list Obj;
  applied : list (nat * Obj);
  switchClasses : list (string * list string);
  fontSizeShown : Value;
}.

(** How one [saveSettings] goes on after its call of [storage.sync.set]:
    the write or the query of the active tab rejects, or there is no
    active tab, or there is one. *)
Inductive SaveOutcome : Type :=
| SetRejected
| QueryRejected
| NoTab
| Tab (id : nat).

(** [loadSettings], lines 22-31: [storage.sync.get] rejects, or it yields
    the stored entry, if any. *)
Definition loadSettings (rejects : bool) (p : Popup) : Popup :=
  if rejects then p
  else
    match stored p with
    | Some saved =>
        {| settings := spread (settings p) saved; stored := stored p;
           writes := writes p; applied := applied p;
           switchClasses := switchClasses p; fontSizeShown := fontSizeShown p |}
    | None => p
    end.

(** [saveSettings], lines 33-48, up to its first [await]. *)
Definition saveSettings (p : Popup) : Popup :=
  {| settings := settings p; stored := stored p;
     writes := writes p ++ [settings p]; applied := applied p;
     switchClasses := switchClasses p; fontSizeShown := fontSizeShown p |}.

(** The rest of the oldest [saveSettings] in flight: the message to the
    tab reads [this.settings] when it is sent. *)
Definition saveSettled (o : SaveOutcome) (p : Popup) : Popup :=
  match writes p with
  | [] => p
  | snapshot :: rest =>
      match o with
      | SetRejected =>
          {| settings := settings p; stored := stored p; writes := rest;
             applied := applied p; switchClasses := switchClasses p;
             fontSizeShown := fontSizeShown p |}
      | QueryRejected | NoTab =>
          {| settings := settings p; stored := Some snapshot; writes := rest;
             applied := applied p; switchClasses := switchClasses p;
             fontSizeShown := fontSizeShown p |}
      | Tab id =>
          {| settings := settings p; stored := Some snapshot; writes := rest;
             applied := applied p ++ [(id, settings p)];
             switchClasses := switchClasses p; fontSizeShown := fontSizeShown p |}
      end
  end.

(** [updateUI], lines 83-98. *)
Definition updateUI (p : Popup) : Popup :=
  {| settings := settings p; stored := stored p; writes := writes p;
     applied := applied p;
     switchClasses :=
       map (λ el, if decide (fst el ∈ switches)
                  then (fst el, setClass (prop (settings p) (fst el)) "active" (snd el))
                  else el)
         (switchClasses p);
     fontSizeShown := prop (settings p) "fontSize" |}.

(** The click handler of a switch, lines 55-59. *)
Definition clickSwitch (switchId : string) (p : Popup) : Popup :=
  saveSettings
    (updateUI
       {| settings :=
            withProp (settings p) switchId
              (Bool (negb (truthy (prop (settings p) switchId))));
          stored := stored p; writes := writes p; applied := applied p;
          switchClasses := switchClasses p; fontSizeShown := fontSizeShown p |}).

(** The [input] handler of the slider, lines 66-70, with the number that
    [Number.parseInt] makes of the slider's value. *)
Definition inputFontSize (parsed : Value) (p : Popup) : Popup :=
  saveSettings
    {| settings := withProp (settings p) "fontSize" parsed;
       stored := stored p; writes := writes p; applied := applied p;
       switchClasses := switchClasses p; fontSizeShown := parsed |}.

(** [resetSettings], lines 133-144. *)
Definition resetSettings (p : Popup) : Popup :=
  saveSettings
    (updateUI
       {| settings := defaults; stored := stored p; writes := writes p;
          applied := applied p; switchClasses := switchClasses p;
          fontSizeShown := fontSizeShown p |}).

(** A popup as the constructor leaves it, over what the storage holds and
    a page whose switch elements carry the given classes. *)
Definition newPopup (inStorage : option Obj) (classes : list (string * list string))
    : Popup :=
  {| settings := defaults; stored := inStorage; writes := []; applied := [];
     switchClasses := classes; fontSizeShown := Undefined |}.

(** [init], lines 15-20, without the connection status: load, then show. *)
Definition init (rejects : bool) (p : Popup) : Popup :=
  updateUI (loadSettings rejects p).

End PinkSyncPopup.

(** ** The dashboard page *)

(** The two effects and the statistics of [DashboardPage]: lines 29-67 of
    [src/unnamed/part_000]. *)
Module DashboardPage.
Import Js JsOps SignLanguageDemo AuthContext.

(** The effect of lines 39-43: [router.push("/auth/login")] when loading
    has ended and nobody is signed in. *)
Definition redirect (a : Auth) : Auth :=
  if negb (isLoading a) && negb (isAuthenticated a) then
    {| user := user a; isLoading := isLoading a; token := token a;
       pushed := pushed a ++ ["/auth/login"] |}
  else a.

(** The effect of lines 45-49 with the call of [fetchDashboardStats],
    lines 51-58: the token is read from the storage when the call is made,
    and [null] reads as the text "null". *)
Definition statsCall (a : Auth) : option Call :=
  if isAuthenticated a && truthy (user a) then
    Some {| path := "/api/dashboard/stats"; verb := "GET";
            bearer := Some (default Null (token a)); payload := None |}
  else None.

(** [fetchDashboardStats] after its [fetch] has settled, lines 60-66: the
    new [stats]. *)
Definition stats_settled (o : FetchOutcome) (stats : Value) : Value :=
  match o with
  | Response true (Some data) => data
  | _ => stats
  end.

End DashboardPage.

(** ** Faults that nothing catches *)

(** What the component does with a socket message that is not an object,
    and with a value it cannot render. Neither file has a [try] around the
    call of a callback or an error boundary around the component. *)
Module SignLanguageDemoFaults.
Import Js JsOps WebSocketContext SignLanguageDemo SignLanguageDemoView.

(** How the socket's ["message"] handler of lines 44-46 ends: it returns,
    or what a callback threw leaves it, with the world as it is then. *)
Inductive Handled : Type :=
| Returned (w : World)
| Uncaught (w : World).

(** [messageCallbacks.current.forEach((callback) => callback(message))],
    the callbacks being [handleMessage] of lines 39-49. On [null] and
    [undefined] its [message.type] throws a TypeError, in the first
    callback and before a setter is called; on a boolean, a number or a
    string [message.type] is [undefined] and no branch is taken. *)
Definition onSocketMessage (message : Value) (w : World) : Handled :=
  match message with
  | Object props => Returned (step w (SocketMessage props))
  | Undefined | Null =>
      match messageCallbacks (provider w) with
      | [] => Returned w
      | _ :: _ => Uncaught w
      end
  | _ => Returned w
  end.

(** A value as the child of an element, as in [{error}] of line 282 and
    [{translationResult.text || "Processing..."}] of line 259: React
    renders a string or a number, renders nothing for a boolean, [null]
    and [undefined], and throws on an object. *)
Definition validChild (v : Value) : bool :=
  match v with
  | Object _ => false
  | _ => true
  end.

(** Does rendering the state throw. *)
Definition renderThrows (s : State) : bool :=
  match render s with
  | None => false
  | Some v =>
      negb (validChild (default Null (errorPanel v)))
      || negb (validChild (default Null (shownText <$> resultPanel v)))
  end.

End SignLanguageDemoFaults.

Import SignLanguageDemoFaults.

(** *** Worlds of a connection that drops *)




(** ** Handling of messages *)

Lemma strictEqStr_true v s : strictEqStr v s = true ↔ v = Str s.
Proof.
  destruct v; simpl; try (split; [discriminate | congruence]).
  rewrite String.eqb_eq. split; congruence.
Qed.

Lemma strictEqStr_false v s : strictEqStr v s = false ↔ v ≠ Str s.
Proof.
  rewrite <- strictEqStr_true. destruct (strictEqStr v s); split; congruence.
Qed.

Lemma handleMessage_final m :
  isFinal m → handleMessage m = [SetTranslationResult (prop m "data"); SetIsProcessing false].
Proof. unfold isFinal, handleMessage. intros ->. reflexivity. Qed.

Lemma handleMessage_partial m :
  isPartial m → handleMessage m = [SetTranslationResult (prop m "data")].
Proof. unfold isPartial, handleMessage. intros ->. reflexivity. Qed.

Lemma handleMessage_error m :
  isError m → handleMessage m = [SetError (prop m "message"); SetIsProcessing false].
Proof. unfold isError, handleMessage. intros ->. reflexivity. Qed.

Lemma handleMessage_other m :
  ¬ isFinal m → ¬ isPartial m → ¬ isError m → handleMessage m = [].
Proof.
  unfold isFinal, isPartial, isError, handleMessage.
  intros Hf Hp He.
  apply strictEqStr_false in Hf, Hp, He. rewrite Hf, Hp, He. reflexivity.
Qed.

Lemma prop_cons_ne k v m k' : k' ≠ k → prop ((k, v) :: m) k' = prop m k'.
Proof.
  intros Hne. simpl. destruct (String.eqb_spec k' k); [contradiction | reflexivity].
Qed.

Lemma deliver_app ms1 ms2 s : deliver (ms1 ++ ms2) s = deliver ms2 (deliver ms1 s).
Proof. unfold deliver. apply foldl_app. Qed.

Lemma deliver_partials_flag ms s :
  Forall isPartial ms → isProcessing (deliver ms s) = isProcessing s.
Proof.
  intros Hall. revert s.
  induction Hall as [| m ms Hm _ IH]; intros s; [reflexivity |].
  change (deliver (m :: ms) s) with (deliver ms (commit (handleMessage m) s)).
  rewrite IH, (handleMessage_partial m Hm). reflexivity.
Qed.

(** C1, as amended. [handleMessage] compares no session identity: a property
    of the message other than [type], [data] and [message] is never read, so a
    [translation_result] message replaces the projection and clears the
    processing flag, and a [partial_translation] message replaces the
    projection, whatever session the message is tagged with. The state is
    left unchanged only by messages whose type is none of the three. *)
Theorem handleMessage_reads_no_session_identity (m : Obj) (st : State) :
  (∀ k v, k ≠ "type" → k ≠ "data" → k ≠ "message" →
     handleMessage ((k, v) :: m) = handleMessage m) ∧
  (isFinal m →
     translationResult (commit (handleMessage m) st) = prop m "data" ∧
     isProcessing (commit (handleMessage m) st) = false) ∧
  (isPartial m →
     translationResult (commit (handleMessage m) st) = prop m "data" ∧
     isProcessing (commit (handleMessage m) st) = isProcessing st) ∧
  (¬ isFinal m → ¬ isPartial m → ¬ isError m →
     commit (handleMessage m) st = st).
Proof.
  repeat split.
  - intros k v Ht Hd Hm. unfold handleMessage.
    rewrite !(prop_cons_ne k v m) by congruence. reflexivity.
  - rewrite (handleMessage_final m) by assumption. reflexivity.
  - rewrite (handleMessage_final m) by assumption. reflexivity.
  - rewrite (handleMessage_partial m) by assumption. reflexivity.
  - rewrite (handleMessage_partial m) by assumption. reflexivity.
  - intros Hf Hp He. rewrite (handleMessage_other m Hf Hp He). reflexivity.
Qed.

(** C1, on an input: the final result of session "session-1" reaches a
    component whose active session is "session-2" and is applied. *)
Lemma handleMessage_reads_no_session_identity_witness :
  translationResult
    (commit (handleMessage (taggedFinal "session-1" hello)) awaitingState)
  = toValue hello ∧
  handleMessage (taggedFinal "session-1" hello)
  = handleMessage (resultMessage "translation_result" hello).
Proof.
  destruct (handleMessage_reads_no_session_identity
              (resultMessage "translation_result" hello) awaitingState)
    as (Htag & Hfinal & _).
  unfold taggedFinal. split.
  - rewrite (Htag "session_id" (Str "session-1")) by discriminate.
    apply Hfinal. reflexivity.
  - apply Htag; discriminate.
Defined.

(** C1 as the specification has it fails: the message is tagged with a
    session other than the active one, "session-2", and both the projection
    and the processing flag change. *)
Lemma foreign_result_is_applied :
  prop (taggedFinal "session-1" hello) "session_id" ≠ Str "session-2" ∧
  translationResult
    (commit (handleMessage (taggedFinal "session-1" hello)) awaitingState)
  ≠ translationResult awaitingState ∧
  isProcessing
    (commit (handleMessage (taggedFinal "session-1" hello)) awaitingState)
  ≠ isProcessing awaitingState.
Proof. repeat split; discriminate. Qed.

(** C2. Partial results followed by one final result, handled in order: the
    projection ends as the final result's data and the processing flag ends
    cleared, however many partials came first and whatever they held; after
    each partial the projection is that partial's data and the processing
    flag is what it was when the session began to wait. *)
Theorem partials_then_final (partials : list Obj) (final : Obj) (st : State) :
  Forall isPartial partials →
  isFinal final →
  translationResult (deliver (partials ++ [final]) st) = prop final "data" ∧
  isProcessing (deliver (partials ++ [final]) st) = false ∧
  ∀ n p, partials !! n = Some p →
    translationResult (deliver (take (S n) partials) st) = prop p "data" ∧
    isProcessing (deliver (take (S n) partials) st) = isProcessing st.
Proof.
  intros Hpartials Hfinal. split; [| split].
  - rewrite deliver_app. unfold deliver at 1. simpl.
    rewrite (handleMessage_final final Hfinal). reflexivity.
  - rewrite deliver_app. unfold deliver at 1. simpl.
    rewrite (handleMessage_final final Hfinal). reflexivity.
  - intros n p Hn.
    assert (Hp : isPartial p).
    { eapply Forall_lookup_1; eassumption. }
    split.
    + rewrite (take_S_r partials n p Hn), deliver_app.
      unfold deliver at 1. simpl.
      rewrite (handleMessage_partial p Hp). reflexivity.
    + apply deliver_partials_flag, Forall_take, Hpartials.
Qed.

(** C2 on the scenario of the specification: two partials, then the final
    result, for a session that awaits its result. *)
Lemma partials_then_final_witness :
  translationResult
    (deliver [resultMessage "partial_translation" hello;
              resultMessage "partial_translation" helloWorld;
              resultMessage "translation_result" helloWorldFinal] awaitingState)
  = toValue helloWorldFinal ∧
  isProcessing
    (deliver [resultMessage "partial_translation" hello;
              resultMessage "partial_translation" helloWorld;
              resultMessage "translation_result" helloWorldFinal] awaitingState)
  = false ∧
  isProcessing
    (deliver [resultMessage "partial_translation" hello;
              resultMessage "partial_translation" helloWorld] awaitingState)
  = true.
Proof.
  destruct (partials_then_final
              [resultMessage "partial_translation" hello;
               resultMessage "partial_translation" helloWorld]
              (resultMessage "translation_result" helloWorldFinal)
              awaitingState) as (Hresult & Hflag & Heach).
  - repeat constructor.
  - reflexivity.
  - split; [exact Hresult | split; [exact Hflag |]].
    exact (proj2 (Heach 1 (resultMessage "partial_translation" helloWorld) eq_refl)).
Defined.


(** ** One session at a time *)

Lemma handleMessage_flags m s :
  isRecording (commit (handleMessage m) s) = isRecording s ∧
  (isProcessing (commit (handleMessage m) s) = isProcessing s ∨
   isProcessing (commit (handleMessage m) s) = false).
Proof.
  unfold handleMessage.
  repeat match goal with |- context [if ?b then _ else _] => destruct b end;
    simpl; auto.
Qed.

Lemma forEach_handleMessage_flags m cbs s :
  isRecording (forEachCallback (λ _ m s, commit (handleMessage m) s) m cbs s)
  = isRecording s ∧
  (isProcessing (forEachCallback (λ _ m s, commit (handleMessage m) s) m cbs s)
   = isProcessing s ∨
   isProcessing (forEachCallback (λ _ m s, commit (handleMessage m) s) m cbs s)
   = false).
Proof.
  revert s. induction cbs as [| c cbs IH]; intros s; [simpl; auto |].
  change (forEachCallback _ m (c :: cbs) s)
    with (forEachCallback (λ _ m s, commit (handleMessage m) s) m cbs
            (commit (handleMessage m) s)).
  destruct (IH (commit (handleMessage m) s)) as [-> Hp].
  destruct (handleMessage_flags m s) as [-> Hq].
  split; [reflexivity |].
  destruct Hp as [-> | ->]; auto.
Qed.

Lemma step_single_session w e : single_session w → single_session (step w e).
Proof.
  intros Hw. pose proof Hw as [Hflag Hrec]. destruct e; simpl.
  - (* ClickStart *)
    unfold startEnabled. destruct (permissionGranted (state w)) eqn:Hg; simpl; [| exact Hw].
    destruct (isRecording (state w)) eqn:Hr; simpl; [exact Hw |].
    destruct (isProcessing (state w)) eqn:Hp; simpl; [exact Hw |].
    unfold startRecording. destruct (webcamStream (refs w)); simpl; [| exact Hw].
    split; simpl; [rewrite Hp; by auto |].
    intros r Hlook. split; [reflexivity |].
    destruct (decide (r < length (recorders w))) as [Hlt | Hge].
    + rewrite lookup_app_l in Hlook by assumption.
      destruct (Hrec r Hlook) as [Habs _]. congruence.
    + apply lookup_lt_Some in Hlook. rewrite length_app in Hlook. simpl in Hlook.
      f_equal. lia.
  - (* ClickStop *)
    unfold stopEnabled. destruct (permissionGranted (state w)); simpl; [| exact Hw].
    destruct (isRecording (state w)) eqn:Hr; simpl; [| exact Hw].
    unfold stopRecording. destruct (mediaRecorderRef (refs w)) as [r0 |] eqn:Href; [| exact Hw].
    rewrite Hr. split; simpl; [discriminate |].
    intros r Hlook. exfalso. unfold stop in Hlook.
    destruct (recorders w !! r0) as [[] |] eqn:H0.
    + destruct (decide (r = r0)) as [-> | Hne].
      * rewrite list_lookup_insert_eq in Hlook; [discriminate |].
        eapply lookup_lt_Some; eassumption.
      * rewrite list_lookup_insert_ne in Hlook by congruence.
        destruct (Hrec r Hlook) as [_ Heq]. congruence.
    + destruct (Hrec r Hlook) as [_ Heq]. congruence.
    + destruct (Hrec r Hlook) as [_ Heq]. congruence.
    + destruct (Hrec r Hlook) as [_ Heq]. congruence.
  - (* DataAvailable *)
    destruct (recorders w !! r) as [[] |]; try exact Hw.
    unfold ondataavailable. destruct (decide _); exact Hw.
  - (* RecorderStopped *)
    destruct (recorders w !! r) as [[] |] eqn:Hr; try exact Hw.
    assert (Hkeep : ∀ r', <[r := Inactive]> (recorders w) !! r' = Some Recording →
                          recorders w !! r' = Some Recording).
    { intros r' Hlook. destruct (decide (r' = r)) as [-> | Hne].
      - rewrite list_lookup_insert_eq in Hlook; [discriminate |].
        eapply lookup_lt_Some; eassumption.
      - rewrite list_lookup_insert_ne in Hlook by congruence. exact Hlook. }
    unfold onstop, processVideo. destruct throws; simpl.
    + split; simpl; [auto |]. intros r' Hlook. apply Hrec, Hkeep, Hlook.
    + split; simpl; [auto |]. intros r' Hlook. apply Hrec, Hkeep, Hlook.
  - (* ReaderLoaded *)
    destruct (reads w) as [| blob rest]; [exact Hw |].
    unfold onloadend, processVideoHTTP. simpl.
    destruct (ctx_isConnected (closure w)); exact Hw.
  - (* FetchSettled *)
    destruct (fetches w) as [| req rest]; [exact Hw |].
    split; simpl.
    + intros Hr. destruct o as [| [] []]; simpl in *; auto.
    + intros r Hlook. destruct (Hrec r Hlook) as [Hr Href].
      split; [| exact Href]. destruct o as [| [] []]; simpl; auto.
  - exact Hw.
  - exact Hw.
  - (* SocketMessage *)
    destruct (forEach_handleMessage_flags message (messageCallbacks (provider w))
                (state w)) as [Hr Hp].
    split; simpl.
    + rewrite Hr. intros Hrec'. destruct Hp as [-> | ->]; auto.
    + intros r Hlook. rewrite Hr. apply Hrec, Hlook.
  - (* UserMedia *)
    destruct granted; exact Hw.
  - exact Hw.
Qed.

Lemma run_single_session es w : single_session w → single_session (run es w).
Proof.
  revert w. induction es as [| e es IH]; intros w Hw; [exact Hw |].
  apply (IH (step w e)), step_single_session, Hw.
Qed.

Lemma mount_single_session e p stream : single_session (mount e p stream).
Proof. split; [reflexivity | intros r Hr; discriminate]. Qed.

(** C3, as amended. [startRecording] tests nothing but the camera stream:
    called with a stream it sets [isRecording], resets the error and the
    projection, leaves [isProcessing] as it was and starts one more recorder
    beside those that exist, so it neither fails nor cancels. The guard is at
    its one call site: a click on Start while a session is active changes
    nothing. From the mount on, whatever the events, the component never
    records and awaits a result at once, and no two recorders capture. *)
Theorem start_is_guarded_at_the_start_button (w : World) :
  (webcamStream (refs w) = true →
     isRecording (state (startRecording w)) = true ∧
     isProcessing (state (startRecording w)) = isProcessing (state w) ∧
     error (state (startRecording w)) = Null ∧
     translationResult (state (startRecording w)) = Null ∧
     recorders (startRecording w) = recorders w ++ [Recording]) ∧
  (active (state w) = true → step w ClickStart = w) ∧
  (∀ e p stream es,
     single_session (run es (mount e p stream)) ∧
     ∀ r r', recorders (run es (mount e p stream)) !! r = Some Recording →
             recorders (run es (mount e p stream)) !! r' = Some Recording →
             r = r').
Proof.
  split; [| split].
  - intros Hstream. unfold startRecording. rewrite Hstream. simpl. auto.
  - unfold active. intros Hactive. simpl. unfold startEnabled.
    destruct (isRecording (state w)), (isProcessing (state w));
      try discriminate; rewrite ?andb_false_r; reflexivity.
  - intros e p stream es.
    pose proof (run_single_session es _ (mount_single_session e p stream)) as Hinv.
    split; [exact Hinv |].
    intros r r' Hr Hr'. destruct Hinv as [_ Href].
    destruct (Href r Hr) as [_ H1]. destruct (Href r' Hr') as [_ H2]. congruence.
Qed.

(** C3 on inputs: Start is clicked while the session of [awaitingWorld]
    waits, and [startRecording] is called on a fresh mount with a stream. *)
Lemma start_is_guarded_at_the_start_button_witness :
  step awaitingWorld ClickStart = awaitingWorld ∧
  recorders (startRecording (mount demoEnv connected true)) = [Recording].
Proof.
  split.
  - apply (start_is_guarded_at_the_start_button awaitingWorld). reflexivity.
  - apply (start_is_guarded_at_the_start_button (mount demoEnv connected true)).
    reflexivity.
Defined.

(** C3 as the specification has it fails: [startRecording] called while a
    session records reports no error and leaves the recorder of that session
    recording beside the new one. *)
Lemma startRecording_while_recording :
  isRecording (state capturingWorld) = true ∧
  recorders capturingWorld = [Recording] ∧
  error (state (startRecording capturingWorld)) = Null ∧
  isRecording (state (startRecording capturingWorld)) = true ∧
  recorders (startRecording capturingWorld) = [Recording; Recording].
Proof. repeat split. Qed.

(** ** Choice of the channel *)

(** Closes the goals that say a step left some fields alone. *)
Ltac untouched := repeat split; simpl; solve [reflexivity | assumption | lia].

Lemma with_wire_same w : with_wire (wire w) w = w.
Proof. destruct w; reflexivity. Qed.

Lemma sendMessage_down v type data wire :
  ctx_socket v = None ∨ ctx_isConnected v = false →
  sendMessage v type data wire = wire.
Proof.
  unfold sendMessage. intros [-> | ->]; [reflexivity |].
  destruct (ctx_socket v); reflexivity.
Qed.

(** C4, as amended. The channel is chosen when the recorded clip has been
    read, in [reader.onloadend], by one test of the [isConnected] that the
    closure of [processVideo] holds: when it is true the request goes to
    [sendMessage] and no HTTP request is made, when it is false one HTTP
    request is made and nothing goes to the socket. No other event sends a
    request on either channel, so a connect or a disconnect that comes later
    moves nothing. *)
Theorem channel_is_chosen_when_the_clip_is_read (w : World) (base64data : Value) :
  (ctx_isConnected (closure w) = true →
     wire (onloadend base64data w)
     = sendMessage (closure w) "translation_request"
         (Object (translationRequest base64data)) (wire w) ∧
     fetches (onloadend base64data w) = fetches w) ∧
  (ctx_isConnected (closure w) = false →
     wire (onloadend base64data w) = wire w ∧
     fetches (onloadend base64data w)
     = fetches w ++ [fetchRequest (env w) base64data]) ∧
  (∀ e, (∀ result, e ≠ ReaderLoaded result) →
     wire (step w e) = wire w ∧
     length (fetches (step w e)) ≤ length (fetches w)).
Proof.
  split; [| split].
  - intros Hc. unfold onloadend. rewrite Hc. split; reflexivity.
  - intros Hc. unfold onloadend. rewrite Hc. split; reflexivity.
  - intros e Hne. destruct e; simpl.
    + destruct (startEnabled (state w)); [| untouched].
      unfold startRecording. destruct (webcamStream (refs w)); untouched.
    + destruct (stopEnabled (state w)); [| untouched].
      unfold stopRecording.
      destruct (mediaRecorderRef (refs w)); [| untouched].
      destruct (isRecording (state w)); untouched.
    + destruct (recorders w !! r) as [[] |]; try untouched.
      unfold ondataavailable. destruct (decide _); untouched.
    + destruct (recorders w !! r) as [[] |]; try untouched.
      unfold onstop, processVideo. destruct throws; untouched.
    + destruct (Hne result eq_refl).
    + destruct (fetches w) as [| req rest] eqn:Hf; simpl; rewrite ?Hf; untouched.
    + untouched.
    + untouched.
    + untouched.
    + untouched.
    + untouched.
Qed.

(** C4 on inputs: a closure that saw the socket connected sends on it, and
    one that saw it connecting posts over HTTP. *)
Lemma channel_is_chosen_when_the_clip_is_read_witness :
  length (wire (onloadend clip (mount demoEnv connected true))) = 1 ∧
  fetches (onloadend clip (mount demoEnv connecting true))
  = [fetchRequest demoEnv clip].
Proof.
  split.
  - destruct (channel_is_chosen_when_the_clip_is_read
                (mount demoEnv connected true) clip) as ([Hwire _] & _).
    + reflexivity.
    + rewrite Hwire. reflexivity.
  - destruct (channel_is_chosen_when_the_clip_is_read
                (mount demoEnv connecting true) clip) as (_ & [_ Hfetch] & _).
    + reflexivity.
    + rewrite Hfetch. reflexivity.
Defined.

(** C4 as the specification has it fails: the socket is connected when the
    session starts, it drops during the recording, and the clip goes out
    over HTTP with nothing sent on the socket. *)
Lemma connected_at_start_sent_over_http :
  isConnected (provider startedOnline) = true ∧
  isRecording (state startedOnline) = true ∧
  wire sentAfterDrop = [] ∧
  fetches sentAfterDrop = [fetchRequest demoEnv clip].
Proof. repeat split. Qed.




(** ** The fallback channel *)



(** ** Leaving a session *)

Lemma invoke_not_idle op w : ¬ idle (state w) → ¬ idle (state (invoke op w)).
Proof.
  unfold idle. intros Hbusy [Hr Hp]. apply Hbusy. destruct op; simpl in *.
  - unfold startRecording in *.
    destruct (webcamStream (refs w)); simpl in *; [discriminate | auto].
  - unfold stopRecording in *.
    destruct (mediaRecorderRef (refs w)); [| auto].
    destruct (isRecording (state w)); simpl in *; [discriminate | auto].
Qed.

(** C6, as amended. The component has no cancel operation: neither of the
    two operations it offers takes a session that is not idle to Idle.
    [stopRecording] called while recording stops the recorder and sets the
    processing flag, so the session goes on to await its result;
    [stopRecording] called when nothing records changes nothing. *)
Theorem no_operation_returns_to_idle (w : World) :
  (∀ op, ¬ idle (state w) → ¬ idle (state (invoke op w))) ∧
  (∀ r, isRecording (state w) = true → mediaRecorderRef (refs w) = Some r →
     isRecording (state (stopRecording w)) = false ∧
     isProcessing (state (stopRecording w)) = true ∧
     recorders (stopRecording w) = stop r (recorders w)) ∧
  (isRecording (state w) = false → stopRecording w = w).
Proof.
  split; [| split].
  - intros op. apply invoke_not_idle.
  - intros r Hr Href. unfold stopRecording. rewrite Href, Hr. repeat split.
  - intros Hr. unfold stopRecording. rewrite Hr.
    destruct (mediaRecorderRef (refs w)); reflexivity.
Qed.

(** C6 on inputs: Stop while recording, and Stop while awaiting. *)
Lemma no_operation_returns_to_idle_witness :
  isProcessing (state (stopRecording capturingWorld)) = true ∧
  stopRecording awaitingWorld = awaitingWorld.
Proof.
  split.
  - destruct (no_operation_returns_to_idle capturingWorld) as (_ & Hstop & _).
    exact (proj1 (proj2 (Hstop 0 eq_refl eq_refl))).
  - apply (no_operation_returns_to_idle awaitingWorld). reflexivity.
Defined.

(** C6 as the specification has it fails: a session awaits its result,
    neither operation brings it to Idle, and the result of that session is
    applied when it arrives. *)
Lemma awaiting_session_cannot_be_cancelled :
  awaiting (state awaitingWorld) ∧
  (∀ op, ¬ idle (state (invoke op awaitingWorld))) ∧
  translationResult
    (state (step awaitingWorld
              (SocketMessage (resultMessage "translation_result" hello))))
  = toValue hello.
Proof.
  split; [split; reflexivity |]. split; [| reflexivity].
  intros [] [Hr Hp]; discriminate.
Qed.

(** ** Waiting for the result *)

Lemma run_ticks n w : run (replicate n Tick) w = w.
Proof. induction n as [| n IH]; [reflexivity | exact IH]. Qed.

Lemma step_quiet w e :
  quiet e = true → awaiting (state w) →
  isRecording (state (step w e)) = isRecording (state w) ∧
  isProcessing (state (step w e)) = isProcessing (state w) ∧
  translationResult (state (step w e)) = translationResult (state w) ∧
  error (state (step w e)) = error (state w).
Proof.
  intros Hq [Hr Hp]. destruct e; simpl in *; try discriminate.
  - unfold startEnabled. rewrite Hr, Hp, andb_false_r. untouched.
  - unfold stopEnabled. rewrite Hr, andb_false_r. untouched.
  - destruct (recorders w !! r) as [[] |]; try untouched.
    unfold ondataavailable. destruct (decide _); untouched.
  - destruct throws; [discriminate |].
    destruct (recorders w !! r) as [[] |]; untouched.
  - destruct (reads w) as [| blob rest]; [untouched |].
    unfold onloadend. destruct (ctx_isConnected (closure (with_reads rest w))); untouched.
  - untouched.
  - untouched.
  - destruct granted; [untouched | discriminate].
  - untouched.
Qed.

(** C7, as amended. The wait for a result has no bound: while a session
    awaits its result, events that deliver neither a message nor an HTTP
    outcome nor a failure (ticks of time among them, and clicks, and the
    connection going up or down) leave it waiting, however many they are:
    the processing flag stays set, the error and the projection stay as they
    were, and the Start button stays disabled. *)
Theorem awaiting_result_waits_without_bound (w : World) (es : list Event) :
  awaiting (state w) →
  Forall (λ e, quiet e = true) es →
  awaiting (state (run es w)) ∧
  translationResult (state (run es w)) = translationResult (state w) ∧
  error (state (run es w)) = error (state w) ∧
  startEnabled (state (run es w)) = false.
Proof.
  intros Hw Hes. revert w Hw.
  induction Hes as [| e es He _ IH]; intros w Hw.
  - destruct Hw as [Hr Hp]. repeat split; try assumption.
    unfold startEnabled. simpl. rewrite Hp, andb_false_r. reflexivity.
  - destruct (step_quiet w e He Hw) as (Hr & Hp & Ht & Herr).
    change (run (e :: es) w) with (run es (step w e)).
    rewrite <- Ht, <- Herr. apply IH.
    destruct Hw as [Hr0 Hp0]. split; congruence.
Qed.

(** C7 on an input: three ticks, a click on each button and a
    dropped connection, while [awaitingWorld] waits. *)
Lemma awaiting_result_waits_without_bound_witness :
  awaiting
    (state (run (replicate 3 Tick ++ [ClickStart; ClickStop; SocketDisconnect])
              awaitingWorld)).
Proof.
  apply (awaiting_result_waits_without_bound awaitingWorld
           (replicate 3 Tick ++ [ClickStart; ClickStop; SocketDisconnect])).
  - split; reflexivity.
  - simpl. repeat constructor.
Defined.

(** C7 as the specification has it fails: no number of ticks makes the
    session of [awaitingWorld] fail. *)
Lemma no_bound_times_out : ¬ ∃ bound, timesOutWithin bound awaitingWorld.
Proof.
  intros [bound [Hflag _]]. rewrite run_ticks in Hflag. discriminate.
Qed.

(** ** Errors *)

(** C8, as amended. An [error] message of the socket sets the error to
    what its [message] holds, the text of the service when it is one and
    [undefined] when there is none, and clears the processing flag. A
    failed HTTP call sets the error to "Translation service unavailable.
    Please try again." and clears the flag; a refused camera sets it to
    "Camera permission required for sign language recognition" and leaves
    the flag as it is; a throw in [processVideo] sets it to "Failed to
    process video" and clears the flag. None of the four assigns the
    projection. Not every fault is caught: a socket message that is [null]
    or [undefined] makes [handleMessage] throw, nothing catches it and the
    state stays as it was; and an [error] message whose [message] is an
    object is stored as the error, which the next render throws on. The
    loss of the connection reaches the session as neither an error nor a
    result: the state of the component is what it was, and only
    [isConnected] of the provider is cleared. *)
Theorem errors_reach_the_error_state (w : World) (s : State) :
  (∀ m, isError m →
     error (commit (handleMessage m) s) = prop m "message" ∧
     isProcessing (commit (handleMessage m) s) = false ∧
     translationResult (commit (handleMessage m) s) = translationResult s) ∧
  (∀ o, (∀ result, o ≠ Response true (Some result)) →
     error (commit (processVideoHTTP_settled o) s)
     = Str "Translation service unavailable. Please try again." ∧
     isProcessing (commit (processVideoHTTP_settled o) s) = false ∧
     translationResult (commit (processVideoHTTP_settled o) s) = translationResult s) ∧
  (error (commit (onUserMedia false) s)
   = Str "Camera permission required for sign language recognition" ∧
   isProcessing (commit (onUserMedia false) s) = isProcessing s ∧
   translationResult (commit (onUserMedia false) s) = translationResult s) ∧
  (∀ videoBlob,
     error (state (processVideo true videoBlob w)) = Str "Failed to process video" ∧
     isProcessing (state (processVideo true videoBlob w)) = false ∧
     translationResult (state (processVideo true videoBlob w))
     = translationResult (state w)) ∧
  (∀ message, message = Null ∨ message = Undefined →
     messageCallbacks (provider w) ≠ [] →
     onSocketMessage message w = Uncaught w) ∧
  (∀ m props, isError m → prop m "message" = Object props →
     permissionGranted s = true →
     error (commit (handleMessage m) s) = Object props ∧
     renderThrows (commit (handleMessage m) s) = true) ∧
  (state (step w SocketDisconnect) = state w ∧
   isConnected (provider (step w SocketDisconnect)) = false).
Proof.
  split; [| split; [| split; [| split; [| split; [| split]]]]].
  - intros m Hm. rewrite (handleMessage_error m Hm). repeat split.
  - intros o Hfail. destruct o as [| [] [result |]]; try (repeat split; fail).
    destruct (Hfail result eq_refl).
  - repeat split.
  - intros videoBlob. repeat split.
  - intros message Hnull Hsubs. unfold onSocketMessage.
    destruct (messageCallbacks (provider w)); [contradiction |].
    destruct Hnull as [-> | ->]; reflexivity.
  - intros m props Hm Hobj Hg. rewrite (handleMessage_error m Hm).
    unfold renderThrows, render. simpl. rewrite Hg, Hobj. split; reflexivity.
  - split; reflexivity.
Qed.

(** C8 on inputs: an [error] message of the service with its text, and a
    [null] message, for a session that awaits its result. *)
Lemma errors_reach_the_error_state_witness :
  error (commit (handleMessage [("type", Str "error"); ("message", Str "model offline")])
           awaitingState)
  = Str "model offline" ∧
  isProcessing (commit (processVideoHTTP_settled Rejected) awaitingState) = false ∧
  onSocketMessage Null awaitingWorld = Uncaught awaitingWorld.
Proof.
  destruct (errors_reach_the_error_state awaitingWorld awaitingState)
    as (Hmessage & Hfetch & _ & _ & Hnull & _).
  split; [| split].
  - apply (Hmessage [("type", Str "error"); ("message", Str "model offline")]).
    reflexivity.
  - apply (Hfetch Rejected). intros result. discriminate.
  - apply (Hnull Null); [left; reflexivity | discriminate].
Defined.

(** C8 as the specification has it fails. The request of [awaitingWorld]
    is out on the socket, the socket disconnects, and the session shows no
    error and is still processing. A [null] message throws out of the
    handler with no error set and the session still processing. An [error]
    message that carries an object sets no text: the error is the object,
    and rendering it throws. *)
Lemma connection_loss_and_faults_are_not_surfaced :
  length (wire awaitingWorld) = 1 ∧
  isConnected (provider (step awaitingWorld SocketDisconnect)) = false ∧
  error (state (step awaitingWorld SocketDisconnect)) = Null ∧
  isProcessing (state (step awaitingWorld SocketDisconnect)) = true ∧
  onSocketMessage Null awaitingWorld = Uncaught awaitingWorld ∧
  error (state awaitingWorld) = Null ∧
  isProcessing (state awaitingWorld) = true ∧
  onSocketMessage
    (Object [("type", Str "error"); ("message", Object [("code", Str "E42")])])
    awaitingWorld
  = Returned (step awaitingWorld
                (SocketMessage [("type", Str "error");
                                ("message", Object [("code", Str "E42")])])) ∧
  renderThrows
    (state (step awaitingWorld
              (SocketMessage [("type", Str "error");
                              ("message", Object [("code", Str "E42")])])))
  = true.
Proof. repeat split. Qed.

(** ** The registry of callbacks *)

Lemma offMessage_absent callback callbacks :
  callback ∉ callbacks → offMessage callback callbacks = callbacks.
Proof.
  unfold offMessage. induction callbacks as [| c cs IH]; intros Hnot; [reflexivity |].
  apply not_elem_of_cons in Hnot as [Hne Hnot].
  rewrite filter_cons_True by congruence. f_equal. apply IH, Hnot.
Qed.

Lemma offMessage_not_elem callback callbacks :
  callback ∉ offMessage callback callbacks.
Proof.
  unfold offMessage. intros Hin. apply list_elem_of_filter in Hin as [Hne _].
  apply Hne. reflexivity.
Qed.

Lemma onMessage_elem callback c callbacks :
  c ∈ onMessage callback callbacks ↔ c = callback ∨ c ∈ callbacks.
Proof.
  unfold onMessage. destruct (decide (callback ∈ callbacks)) as [Hin | Hnot].
  - split; [auto | intros [-> | H]; assumption].
  - rewrite elem_of_app, list_elem_of_singleton. tauto.
Qed.

(** [add] and [delete] keep the set free of repeats. *)
Lemma onMessage_NoDup callback callbacks :
  NoDup callbacks → NoDup (onMessage callback callbacks).
Proof.
  intros Hnd. unfold onMessage.
  destruct (decide (callback ∈ callbacks)) as [Hin | Hnot]; [exact Hnd |].
  apply NoDup_app. split; [exact Hnd |]. split.
  - intros c Hc Hc'. apply list_elem_of_singleton in Hc'. congruence.
  - apply NoDup_singleton.
Qed.

Lemma offMessage_NoDup callback callbacks :
  NoDup callbacks → NoDup (offMessage callback callbacks).
Proof. intros Hnd. unfold offMessage. apply NoDup_filter, Hnd. Qed.

Lemma forEachCallback_logCall message callbacks log :
  forEachCallback logCall message callbacks log
  = log ++ map (λ c, (c, message)) callbacks.
Proof.
  unfold forEachCallback, logCall. revert log.
  induction callbacks as [| c cs IH]; intros log; simpl.
  - rewrite app_nil_r. reflexivity.
  - rewrite IH, <- app_assoc. reflexivity.
Qed.

Lemma registry_run_unsubscribed callback ops callbacks log :
  Forall (λ op, op ≠ Subscribe callback) ops →
  callback ∉ callbacks →
  (callback ∉ fst (registry_run ops (callbacks, log))) ∧
  (∃ calls, snd (registry_run ops (callbacks, log)) = log ++ calls ∧
            callback ∉ map fst calls).
Proof.
  intros Hops. revert callbacks log.
  induction Hops as [| op ops Hop _ IH]; intros callbacks log Hnot.
  - split; [exact Hnot |]. exists []. rewrite app_nil_r. split; [reflexivity |].
    apply not_elem_of_nil.
  - change (registry_run (op :: ops) (callbacks, log))
      with (registry_run ops (registry_step (callbacks, log) op)).
    destruct op as [c | c | message]; simpl.
    + apply IH. rewrite onMessage_elem. intros [-> | Hin]; [| exact (Hnot Hin)].
      apply Hop. reflexivity.
    + apply IH. unfold offMessage. intros Hin.
      apply list_elem_of_filter in Hin as [_ Hin]. exact (Hnot Hin).
    + destruct (IH callbacks (forEachCallback logCall message callbacks log) Hnot)
        as [Hreg (calls & Hlog & Hcalls)].
      split; [exact Hreg |].
      exists (map (λ c, (c, message)) callbacks ++ calls). split.
      * rewrite Hlog, forEachCallback_logCall, <- app_assoc. reflexivity.
      * rewrite map_app, not_elem_of_app. split; [| exact Hcalls].
        rewrite map_map. simpl. rewrite map_id. exact Hnot.
Qed.

(** C10, as amended. The registry behaves as a set. Registering a callback
    that is registered leaves the registry as it is, so [onMessage] is
    idempotent. [offMessage] after [onMessage] of one callback gives back
    the registry as it was when the callback was not registered before, and
    the registry without the callback when it was. Once [offMessage] has
    removed a callback, and until it is registered again, no incoming
    message is handed to it. *)
Theorem registry_behaves_as_a_set (callback : Callback) (callbacks : list Callback) :
  (callback ∈ callbacks → onMessage callback callbacks = callbacks) ∧
  onMessage callback (onMessage callback callbacks) = onMessage callback callbacks ∧
  (callback ∉ callbacks →
     offMessage callback (onMessage callback callbacks) = callbacks) ∧
  (callback ∈ callbacks →
     offMessage callback (onMessage callback callbacks)
     = offMessage callback callbacks) ∧
  (∀ ops log, Forall (λ op, op ≠ Subscribe callback) ops →
     (callback ∉ fst (registry_run ops (offMessage callback callbacks, log))) ∧
     (∃ calls,
        snd (registry_run ops (offMessage callback callbacks, log)) = log ++ calls ∧
        callback ∉ map fst calls)).
Proof.
  assert (Hin : callback ∈ callbacks → onMessage callback callbacks = callbacks).
  { intros Hin. unfold onMessage. rewrite decide_True by exact Hin. reflexivity. }
  split; [exact Hin |]. split; [| split; [| split]].
  - unfold onMessage at 1.
    rewrite decide_True by (apply onMessage_elem; left; reflexivity). reflexivity.
  - intros Hnot. unfold onMessage. rewrite decide_False by exact Hnot.
    unfold offMessage. rewrite filter_app, filter_cons_False, filter_nil by auto.
    rewrite app_nil_r. apply offMessage_absent, Hnot.
  - intros Hmem. rewrite (Hin Hmem). reflexivity.
  - intros ops log Hops.
    apply registry_run_unsubscribed; [exact Hops | apply offMessage_not_elem].
Qed.

(** C10 on inputs: a callback that was not registered is added and
    removed, and a removed callback is passed over by a later message. *)
Lemma registry_behaves_as_a_set_witness :
  offMessage 3 (onMessage 3 [1; 2]) = [1; 2] ∧
  2 ∉ fst (registry_run
             [Deliver (resultMessage "translation_result" hello); Subscribe 4]
             (offMessage 2 [1; 2], [])).
Proof.
  split.
  - destruct (registry_behaves_as_a_set 3 [1; 2]) as (_ & _ & Hfresh & _).
    apply Hfresh. intros Hin.
    repeat (apply elem_of_cons in Hin as [Hin | Hin]; [discriminate |]).
    apply elem_of_nil in Hin. exact Hin.
  - destruct (registry_behaves_as_a_set 2 [1; 2]) as (_ & _ & _ & _ & Hgone).
    apply (Hgone [Deliver (resultMessage "translation_result" hello); Subscribe 4] []).
    repeat constructor; discriminate.
Defined.

(** C10 as the specification has it fails: the callback was registered
    before, [onMessage] adds nothing, and [offMessage] after it does not
    give back the registry as it was. *)
Lemma offMessage_after_onMessage_of_a_member :
  onMessage 7 [7] = [7] ∧ offMessage 7 (onMessage 7 [7]) ≠ [7].
Proof. split; [reflexivity | discriminate]. Qed.

(** * More of the component *)

(** ** The closure of the first render *)

Lemma step_closure w e : closure (step w e) = closure w.
Proof.
  destruct e; simpl; try reflexivity.
  - destruct (startEnabled (state w)); [| reflexivity].
    unfold startRecording. destruct (webcamStream (refs w)); reflexivity.
  - destruct (stopEnabled (state w)); [| reflexivity].
    unfold stopRecording. destruct (mediaRecorderRef (refs w)); [| reflexivity].
    destruct (isRecording (state w)); reflexivity.
  - destruct (recorders w !! r) as [[] |]; try reflexivity.
    unfold ondataavailable. destruct (decide _); reflexivity.
  - destruct (recorders w !! r) as [[] |]; try reflexivity.
    unfold onstop, processVideo. destruct throws; reflexivity.
  - destruct (reads w) as [| blob rest]; [reflexivity |].
    unfold onloadend. simpl. destruct (ctx_isConnected (closure w)); reflexivity.
  - destruct (fetches w) as [| req rest]; reflexivity.
Qed.

Lemma run_cons e es w : run (e :: es) w = run es (step w e).
Proof. reflexivity. Qed.

Lemma run_app es1 es2 w : run (es1 ++ es2) w = run es2 (run es1 w).
Proof. unfold run. apply foldl_app. Qed.

Lemma run_closure es w : closure (run es w) = closure w.
Proof.
  revert w. induction es as [| e es IH]; intros w; [reflexivity |].
  rewrite run_cons, IH. apply step_closure.
Qed.

Lemma step_wire_down w e :
  ctx_socket (closure w) = None ∨ ctx_isConnected (closure w) = false →
  wire (step w e) = wire w.
Proof.
  intros Hdown. destruct e; simpl; try reflexivity.
  - destruct (startEnabled (state w)); [| reflexivity].
    unfold startRecording. destruct (webcamStream (refs w)); reflexivity.
  - destruct (stopEnabled (state w)); [| reflexivity].
    unfold stopRecording. destruct (mediaRecorderRef (refs w)); [| reflexivity].
    destruct (isRecording (state w)); reflexivity.
  - destruct (recorders w !! r) as [[] |]; try reflexivity.
    unfold ondataavailable. destruct (decide _); reflexivity.
  - destruct (recorders w !! r) as [[] |]; try reflexivity.
    unfold onstop, processVideo. destruct throws; reflexivity.
  - destruct (reads w) as [| blob rest]; [reflexivity |].
    unfold onloadend. simpl.
    destruct (ctx_isConnected (closure w)) eqn:Hc; [| reflexivity].
    simpl. apply sendMessage_down. rewrite Hc. exact Hdown.
  - destruct (fetches w) as [| req rest]; reflexivity.
Qed.

Lemma step_fetches_connected w e :
  ctx_isConnected (closure w) = true → fetches w = [] → fetches (step w e) = [].
Proof.
  intros Hc Hf. destruct e; simpl; try exact Hf.
  - destruct (startEnabled (state w)); [| exact Hf].
    unfold startRecording. destruct (webcamStream (refs w)); exact Hf.
  - destruct (stopEnabled (state w)); [| exact Hf].
    unfold stopRecording. destruct (mediaRecorderRef (refs w)); [| exact Hf].
    destruct (isRecording (state w)); exact Hf.
  - destruct (recorders w !! r) as [[] |]; try exact Hf.
    unfold ondataavailable. destruct (decide _); exact Hf.
  - destruct (recorders w !! r) as [[] |]; try exact Hf.
    unfold onstop, processVideo. destruct throws; exact Hf.
  - destruct (reads w) as [| blob rest]; [exact Hf |].
    unfold onloadend. simpl. rewrite Hc. exact Hf.
  - rewrite Hf. exact Hf.
Qed.

(** X1. [startRecording] is memoised with an empty dependency list, so the
    [processVideo] that a recorder calls is the one of the first render:
    the context value it tests stays the one the component mounted with,
    whatever happens later. A component that mounted while the provider
    had no socket or was not connected therefore never emits on the
    socket, also when the socket connects before the recording; and one
    that mounted connected never makes an HTTP request, also when the
    connection has dropped since. *)
Theorem first_render_decides_the_channel
    (e : Env) (p : Provider) (stream : bool) (es : list Event) :
  closure (run es (mount e p stream)) = contextValue p ∧
  (socket p = None ∨ isConnected p = false →
     wire (run es (mount e p stream)) = []) ∧
  (isConnected p = true → fetches (run es (mount e p stream)) = []).
Proof.
  split; [apply run_closure |]. split.
  - intros Hdown.
    assert (Hinv : ∀ es w,
               ctx_socket (closure w) = None ∨ ctx_isConnected (closure w) = false →
               wire (run es w) = wire w).
    { clear. intros es. induction es as [| ev es IH]; intros w Hw; [reflexivity |].
      rewrite run_cons, IH by (rewrite step_closure; exact Hw).
      apply step_wire_down, Hw. }
    apply Hinv. exact Hdown.
  - intros Hup.
    assert (Hinv : ∀ es w,
               ctx_isConnected (closure w) = true → fetches w = [] →
               fetches (run es w) = []).
    { clear. intros es. induction es as [| ev es IH]; intros w Hc Hf; [exact Hf |].
      rewrite run_cons. apply IH.
      - rewrite step_closure. exact Hc.
      - apply step_fetches_connected; assumption. }
    apply Hinv; [exact Hup | reflexivity].
Qed.

(** X1 on an input: mounted while connecting, the socket connects, a clip
    is recorded and read: nothing is on the socket. *)
Lemma first_render_decides_the_channel_witness :
  wire (run [UserMedia true; SocketConnect; ClickStart; ClickStop;
             DataAvailable 0 "clip"; RecorderStopped 0 false; ReaderLoaded clip]
          (mount demoEnv connecting true)) = [].
Proof.
  apply (first_render_decides_the_channel demoEnv connecting true).
  right. reflexivity.
Defined.

(** ** Clicks *)

Lemma startRecording_changes w :
  webcamStream (refs w) = true → startRecording w ≠ w.
Proof.
  intros Hs Heq. apply (f_equal (λ v, length (recorders v))) in Heq.
  unfold startRecording in Heq. rewrite Hs in Heq. simpl in Heq.
  rewrite length_app in Heq. simpl in Heq. lia.
Qed.

Lemma stopRecording_changes w r :
  isRecording (state w) = true → mediaRecorderRef (refs w) = Some r →
  stopRecording w ≠ w.
Proof.
  intros Hr Href Heq. apply (f_equal (λ v, isRecording (state v))) in Heq.
  unfold stopRecording in Heq. rewrite Href, Hr in Heq. simpl in Heq. congruence.
Qed.

(** X2. A click on Start changes something exactly when permission is
    granted, nothing is recorded or processed and the webcam has a stream;
    with the button live but no stream the click is dropped without an
    error. A click on Stop changes something exactly when permission is
    granted, the component records and the ref holds a recorder. *)
Theorem clicks_take_effect_exactly_when (w : World) :
  (step w ClickStart ≠ w ↔
     permissionGranted (state w) = true ∧ isRecording (state w) = false ∧
     isProcessing (state w) = false ∧ webcamStream (refs w) = true) ∧
  (step w ClickStop ≠ w ↔
     permissionGranted (state w) = true ∧ isRecording (state w) = true ∧
     is_Some (mediaRecorderRef (refs w))).
Proof.
  split; simpl.
  - unfold startEnabled.
    destruct (permissionGranted (state w)), (isRecording (state w)),
      (isProcessing (state w)); simpl;
      try (split; [intros H; destruct (H eq_refl) | intros (? & ? & ? & ?); discriminate]).
    destruct (webcamStream (refs w)) eqn:Hs.
    + split; [auto | intros _; apply startRecording_changes, Hs].
    + unfold startRecording. rewrite Hs. simpl.
      split; [intros H; destruct (H eq_refl) | intros (? & ? & ? & ?); discriminate].
  - unfold stopEnabled.
    destruct (permissionGranted (state w)), (isRecording (state w)) eqn:Hr; simpl;
      try (split; [intros H; destruct (H eq_refl) | intros (? & ? & ?); discriminate]).
    destruct (mediaRecorderRef (refs w)) as [r |] eqn:Href.
    + split; [eauto | intros _; eapply stopRecording_changes; eassumption].
    + unfold stopRecording. rewrite Href.
      split; [intros H; destruct (H eq_refl) | intros (_ & _ & [r Hr']); discriminate].
Qed.

(** X2 on an input: Start on a fresh mount with permission and a stream. *)
Lemma clicks_take_effect_exactly_when_witness :
  step (run [UserMedia true] (mount demoEnv connected true)) ClickStart
  ≠ run [UserMedia true] (mount demoEnv connected true).
Proof.
  apply (clicks_take_effect_exactly_when
           (run [UserMedia true] (mount demoEnv connected true))).
  repeat split.
Defined.

(** ** From the chunks to the clip *)

Lemma run_chunks r chunks w :
  recorders w !! r = Some Stopping →
  run (map (DataAvailable r) chunks) w
  = with_refs {| webcamStream := webcamStream (refs w);
                 mediaRecorderRef := mediaRecorderRef (refs w);
                 recordedChunks := recordedChunks (refs w) ++ kept chunks |} w.
Proof.
  revert w. induction chunks as [| data chunks IH]; intros w Hr.
  - simpl. rewrite app_nil_r. destruct w as [? ? []]. reflexivity.
  - change (map (DataAvailable r) (data :: chunks))
      with (DataAvailable r data :: map (DataAvailable r) chunks).
    rewrite run_cons. simpl step. rewrite Hr. unfold kept.
    unfold ondataavailable. destruct (decide (0 < String.length data)) as [Hpos | Hzero].
    + rewrite filter_cons_True by exact Hpos.
      rewrite IH by exact Hr. unfold with_refs. simpl.
      rewrite <- app_assoc. reflexivity.
    + rewrite filter_cons_False by exact Hzero.
      apply IH, Hr.
Qed.

Lemma last_recorder_lookup (rs : list RecorderState) x :
  (rs ++ [x]) !! length rs = Some x.
Proof. rewrite lookup_app_r by lia. rewrite Nat.sub_diag. reflexivity. Qed.

Lemma last_recorder_insert (rs : list RecorderState) x y :
  <[length rs := y]> (rs ++ [x]) = rs ++ [y].
Proof. rewrite insert_app_r_alt by lia. rewrite Nat.sub_diag. reflexivity. Qed.

Lemma start_then_stop w :
  startEnabled (state w) = true →
  webcamStream (refs w) = true →
  run [ClickStart; ClickStop] w
  = with_recorders (recorders w ++ [Stopping])
      (with_refs {| webcamStream := true;
                    mediaRecorderRef := Some (length (recorders w));
                    recordedChunks := [] |}
         (with_state {| isRecording := false; isProcessing := true;
                        translationResult := Null; error := Null;
                        permissionGranted := true |} w)).
Proof.
  intros Hstart Hstream.
  assert (Hg : permissionGranted (state w) = true).
  { unfold startEnabled in Hstart.
    destruct (permissionGranted (state w)); [reflexivity | discriminate]. }
  change (run [ClickStart; ClickStop] w) with (step (step w ClickStart) ClickStop).
  assert (H1 : step w ClickStart
               = with_recorders (recorders w ++ [Recording])
                   (with_refs {| webcamStream := webcamStream (refs w);
                                 mediaRecorderRef := Some (length (recorders w));
                                 recordedChunks := [] |}
                      (with_state
                         (commit [SetError Null; SetTranslationResult Null;
                                  SetIsRecording true] (state w)) w))).
  { simpl. rewrite Hstart. unfold startRecording. rewrite Hstream. reflexivity. }
  rewrite H1. simpl. unfold stopEnabled. simpl. rewrite Hg. simpl.
  unfold stopRecording. simpl. unfold stop.
  rewrite last_recorder_lookup, last_recorder_insert, Hstream. reflexivity.
Qed.

Lemma run_recording w chunks :
  startEnabled (state w) = true →
  webcamStream (refs w) = true →
  run (recording (length (recorders w)) chunks) w
  = with_reads (reads w ++ [String.concat "" (kept chunks)])
      (with_recorders (recorders w ++ [Inactive])
         (with_refs {| webcamStream := true;
                       mediaRecorderRef := Some (length (recorders w));
                       recordedChunks := kept chunks |}
            (with_state {| isRecording := false; isProcessing := true;
                           translationResult := Null; error := Null;
                           permissionGranted := true |} w))).
Proof.
  intros Hstart Hstream. unfold recording.
  change (ClickStart :: ClickStop :: ?es) with ([ClickStart; ClickStop] ++ es).
  rewrite run_app, (start_then_stop w Hstart Hstream).
  rewrite run_app, run_chunks by (simpl; apply last_recorder_lookup).
  simpl. rewrite last_recorder_lookup. simpl. rewrite last_recorder_insert.
  reflexivity.
Qed.

(** X3. One recording, from the click on Start to the [stop] event of its
    recorder: the clip handed to the FileReader is the chunks of this
    recording that are not empty, in the order they came, and nothing of
    what [recordedChunks] held before; the component then awaits the
    result and the recorder is inactive. *)
Theorem clip_is_the_kept_chunks_in_order (w : World) (chunks : list Blob) :
  startEnabled (state w) = true →
  webcamStream (refs w) = true →
  reads (run (recording (length (recorders w)) chunks) w)
  = reads w ++ [String.concat "" (kept chunks)] ∧
  awaiting (state (run (recording (length (recorders w)) chunks) w)) ∧
  recorders (run (recording (length (recorders w)) chunks) w)
  = recorders w ++ [Inactive].
Proof.
  intros Hstart Hstream. rewrite (run_recording w chunks Hstart Hstream).
  repeat split.
Qed.

(** X3 on an input: an empty chunk between two others is left out. *)
Lemma clip_is_the_kept_chunks_in_order_witness :
  reads (run (recording 0 ["ab"; ""; "cd"])
           (run [UserMedia true] (mount demoEnv connecting true)))
  = ["abcd"].
Proof.
  apply (clip_is_the_kept_chunks_in_order
           (run [UserMedia true] (mount demoEnv connecting true)) ["ab"; ""; "cd"]);
    reflexivity.
Defined.

(** ** A whole session on the fallback channel *)

(** X4. A session on the fallback channel, from the click on Start to the
    settling of the HTTP call, for a component whose closure saw the socket
    down: the clip that was read is posted in one request, a POST to
    /api/translation/sign-to-text with the bearer token and a body of the
    clip, "ASL" and "en"; nothing goes to the socket, and when the call
    settles, whatever its outcome, the
    component is idle again with the Start button live and no request in
    flight; the state is the one [processVideoHTTP] leaves, on top of the
    error and the projection that Start had cleared: the body of an ok
    answer as the projection, and otherwise the error "Translation service
    unavailable. Please try again.". *)
Theorem fallback_session_returns_to_idle
    (w : World) (chunks : list Blob) (result : Value) (o : FetchOutcome) :
  startEnabled (state w) = true →
  webcamStream (refs w) = true →
  ctx_isConnected (closure w) = false →
  reads w = [] →
  fetches w = [] →
  fetches (run (recording (length (recorders w)) chunks ++ [ReaderLoaded result]) w)
  = [{| url := NEXT_PUBLIC_API_URL (env w) +:+ "/api/translation/sign-to-text";
        method := "POST";
        headers := [("Content-Type", "application/json");
                    ("Authorization",
                     "Bearer " +:+ default "null" (pinksync_token (env w)))];
        body := [("video_data", result); ("source_language", Str "ASL");
                 ("target_language", Str "en")] |}] ∧
  wire (run (recording (length (recorders w)) chunks ++ [ReaderLoaded result]) w)
  = wire w ∧
  state (run (recording (length (recorders w)) chunks
              ++ [ReaderLoaded result; FetchSettled o]) w)
  = commit (processVideoHTTP_settled o)
      {| isRecording := false; isProcessing := true; translationResult := Null;
         error := Null; permissionGranted := true |} ∧
  idle (state (run (recording (length (recorders w)) chunks
                    ++ [ReaderLoaded result; FetchSettled o]) w)) ∧
  startEnabled (state (run (recording (length (recorders w)) chunks
                            ++ [ReaderLoaded result; FetchSettled o]) w)) = true ∧
  fetches (run (recording (length (recorders w)) chunks
                ++ [ReaderLoaded result; FetchSettled o]) w) = [] ∧
  (∀ answer, o = Response true (Some answer) →
     translationResult (state (run (recording (length (recorders w)) chunks
                                    ++ [ReaderLoaded result; FetchSettled o]) w))
     = answer ∧
     error (state (run (recording (length (recorders w)) chunks
                        ++ [ReaderLoaded result; FetchSettled o]) w)) = Null) ∧
  ((∀ answer, o ≠ Response true (Some answer)) →
     translationResult (state (run (recording (length (recorders w)) chunks
                                    ++ [ReaderLoaded result; FetchSettled o]) w))
     = Null ∧
     error (state (run (recording (length (recorders w)) chunks
                        ++ [ReaderLoaded result; FetchSettled o]) w))
     = Str "Translation service unavailable. Please try again.").
Proof.
  intros Hstart Hstream Hdown Hreads Hfetches.
  rewrite !run_app, (run_recording w chunks Hstart Hstream).
  simpl. rewrite Hreads. simpl. unfold onloadend. simpl. rewrite Hdown.
  unfold processVideoHTTP. simpl. rewrite Hfetches. simpl.
  split; [reflexivity |]. split; [reflexivity |].
  split; [destruct o as [| [] []]; reflexivity |].
  split; [destruct o as [| [] []]; repeat split |].
  split; [destruct o as [| [] []]; reflexivity |].
  split; [destruct o as [| [] []]; reflexivity |].
  split.
  - intros answer ->. split; reflexivity.
  - intros Hfail. destruct o as [| [] [answer |]]; try (split; reflexivity).
    destruct (Hfail answer eq_refl).
Qed.

(** X4 on an input: a session of a component that mounted while the socket
    was connecting, answered with the final result of the scenario. *)
Lemma fallback_session_returns_to_idle_witness :
  translationResult
    (state (run (recording 0 ["clip"]
                 ++ [ReaderLoaded clip;
                     FetchSettled (Response true (Some (toValue helloWorldFinal)))])
              (run [UserMedia true] (mount demoEnv connecting true))))
  = toValue helloWorldFinal.
Proof.
  pose proof (fallback_session_returns_to_idle
                (run [UserMedia true] (mount demoEnv connecting true))
                ["clip"] clip (Response true (Some (toValue helloWorldFinal)))
                eq_refl eq_refl eq_refl eq_refl eq_refl)
    as (_ & _ & Hstate & _).
  exact (f_equal translationResult Hstate).
Defined.

(** ** The subscription of the component *)

Lemma handleMessage_idempotent m s :
  commit (handleMessage m) (commit (handleMessage m) s) = commit (handleMessage m) s.
Proof.
  unfold handleMessage.
  repeat match goal with |- context [if ?b then _ else _] => destruct b end;
    reflexivity.
Qed.

Lemma resubscribe_single p w :
  messageCallbacks p = [handler w] →
  messageCallbacks (provider (resubscribe p w)) = [handler (resubscribe p w)].
Proof.
  intros Hp. unfold resubscribe. simpl. rewrite Hp.
  unfold offMessage. rewrite filter_cons_False by (intros H; apply H; reflexivity).
  rewrite filter_nil. reflexivity.
Qed.

Lemma step_single_subscription w e :
  messageCallbacks (provider w) = [handler w] →
  messageCallbacks (provider (step w e)) = [handler (step w e)].
Proof.
  intros Hw. destruct e; simpl; try exact Hw.
  - destruct (startEnabled (state w)); [| exact Hw].
    unfold startRecording. destruct (webcamStream (refs w)); exact Hw.
  - destruct (stopEnabled (state w)); [| exact Hw].
    unfold stopRecording. destruct (mediaRecorderRef (refs w)); [| exact Hw].
    destruct (isRecording (state w)); exact Hw.
  - destruct (recorders w !! r) as [[] |]; try exact Hw.
    unfold ondataavailable. destruct (decide _); exact Hw.
  - destruct (recorders w !! r) as [[] |]; try exact Hw.
    unfold onstop, processVideo. destruct throws; exact Hw.
  - destruct (reads w) as [| blob rest]; [exact Hw |].
    unfold onloadend. simpl. destruct (ctx_isConnected (closure w)); exact Hw.
  - destruct (fetches w) as [| req rest]; exact Hw.
  - apply resubscribe_single. exact Hw.
  - apply resubscribe_single. exact Hw.
Qed.

(** X5. Under a provider that has no other subscriber, the component
    holds exactly one subscription at all times: every time the effect runs
    again (the provider rendered anew), its cleanup removes the old
    [handleMessage] before the new one is added, so the set does not grow.
    Each incoming message is therefore handled once, and unmounting leaves
    the set empty. *)
Theorem one_subscription_at_all_times
    (e : Env) (p : Provider) (stream : bool) (es : list Event) :
  messageCallbacks p = [] →
  messageCallbacks (provider (run es (mount e p stream)))
  = [handler (run es (mount e p stream))] ∧
  (∀ m, state (step (run es (mount e p stream)) (SocketMessage m))
        = commit (handleMessage m) (state (run es (mount e p stream)))) ∧
  messageCallbacks (provider (unmount (run es (mount e p stream)))) = [].
Proof.
  intros Hp.
  assert (Hinv : ∀ es w, messageCallbacks (provider w) = [handler w] →
                         messageCallbacks (provider (run es w)) = [handler (run es w)]).
  { clear. intros es. induction es as [| ev es IH]; intros w Hw; [exact Hw |].
    rewrite run_cons. apply IH, step_single_subscription, Hw. }
  assert (Hone : messageCallbacks (provider (run es (mount e p stream)))
                 = [handler (run es (mount e p stream))]).
  { apply Hinv. simpl. rewrite Hp. reflexivity. }
  split; [exact Hone |]. split.
  - intros m. simpl. rewrite Hone. reflexivity.
  - unfold unmount. simpl. rewrite Hone.
    unfold offMessage. rewrite filter_cons_False by (intros H; apply H; reflexivity).
    apply filter_nil.
Qed.

(** X5 on an input: the socket connects and drops twice, then a message
    comes. *)
Lemma one_subscription_at_all_times_witness :
  length (messageCallbacks
            (provider (run [SocketConnect; SocketDisconnect; SocketConnect;
                            SocketDisconnect] (mount demoEnv connecting true)))) = 1.
Proof.
  destruct (one_subscription_at_all_times demoEnv connecting true
              [SocketConnect; SocketDisconnect; SocketConnect; SocketDisconnect]
              eq_refl) as [Hone _].
  rewrite Hone. reflexivity.
Defined.

Lemma forEach_after_one m callbacks s :
  forEachCallback (λ _ m s, commit (handleMessage m) s) m callbacks
    (commit (handleMessage m) s)
  = commit (handleMessage m) s.
Proof.
  induction callbacks as [| c cs IH]; [reflexivity |].
  change (forEachCallback _ m (c :: cs) (commit (handleMessage m) s))
    with (forEachCallback (λ _ m s, commit (handleMessage m) s) m cs
            (commit (handleMessage m) (commit (handleMessage m) s))).
  rewrite handleMessage_idempotent. exact IH.
Qed.

(** X6. A message that reaches the component more than once, in a row or
    through several registered handlers, leaves the state that handling it
    once leaves. *)
Theorem repeated_delivery_is_one_delivery
    (m : Obj) (callbacks : list Callback) (s : State) :
  callbacks ≠ [] →
  forEachCallback (λ _ m s, commit (handleMessage m) s) m callbacks s
  = commit (handleMessage m) s.
Proof.
  intros Hne. destruct callbacks as [| c cs]; [contradiction |].
  change (forEachCallback _ m (c :: cs) s)
    with (forEachCallback (λ _ m s, commit (handleMessage m) s) m cs
            (commit (handleMessage m) s)).
  apply forEach_after_one.
Qed.

(** X6 on an input: the final result of the scenario, through three
    handlers. *)
Lemma repeated_delivery_is_one_delivery_witness :
  forEachCallback (λ _ m s, commit (handleMessage m) s)
    (resultMessage "translation_result" helloWorldFinal) [0; 1; 2] awaitingState
  = commit (handleMessage (resultMessage "translation_result" helloWorldFinal))
      awaitingState.
Proof.
  apply (repeated_delivery_is_one_delivery
           (resultMessage "translation_result" helloWorldFinal) [0; 1; 2] awaitingState).
  discriminate.
Defined.

(** ** What the user sees *)

(** X7. With permission granted: an [error] message whose [message] is
    missing or falsy ends the processing overlay and shows no error panel;
    a [translation_result] message whose [data] is missing or falsy ends
    the overlay and shows no result panel; and a [translation_result]
    whose data is an object with a missing or empty [text] ends the overlay
    while the result panel reads "Processing...". *)
Theorem payload_missing_ends_processing_unseen (m : Obj) (s : State) :
  permissionGranted s = true →
  (isError m → truthy (prop m "message") = false →
     ∃ v, render (commit (handleMessage m) s) = Some v ∧
          processingOverlay v = false ∧ errorPanel v = None) ∧
  (isFinal m → truthy (prop m "data") = false →
     ∃ v, render (commit (handleMessage m) s) = Some v ∧
          processingOverlay v = false ∧ resultPanel v = None) ∧
  (isFinal m → ∀ props, prop m "data" = Object props →
     truthy (prop props "text") = false →
     ∃ v panel, render (commit (handleMessage m) s) = Some v ∧
                processingOverlay v = false ∧ resultPanel v = Some panel ∧
                shownText panel = Str "Processing...").
Proof.
  intros Hg. split; [| split].
  - intros Hm Hfalsy. rewrite (handleMessage_error m Hm).
    unfold render. simpl. rewrite Hg, Hfalsy. simpl. eauto.
  - intros Hm Hfalsy. rewrite (handleMessage_final m Hm).
    unfold render. simpl. rewrite Hg, Hfalsy. simpl. eauto.
  - intros Hm props Hdata Hfalsy. rewrite (handleMessage_final m Hm).
    unfold render. simpl. rewrite Hg, Hdata. simpl.
    eexists _, _. repeat split. simpl. unfold orElse. rewrite Hfalsy. reflexivity.
Qed.

(** X7 on an input: an [error] message that carries no text. *)
Lemma payload_missing_ends_processing_unseen_witness :
  ∃ v, render (commit (handleMessage [("type", Str "error")]) awaitingState) = Some v ∧
       processingOverlay v = false ∧ errorPanel v = None.
Proof.
  destruct (payload_missing_ends_processing_unseen [("type", Str "error")]
              awaitingState eq_refl) as (Herror & _).
  apply Herror; reflexivity.
Defined.

(** X17. The text set when the camera is refused is not shown while
    permission is missing, since only the camera-access card is rendered
    then. Once a later [getUserMedia] is granted, the demo is rendered with
    that text in its error panel, and it stays until a click on Start
    clears it. *)
Theorem permission_error_outlives_the_grant (w : World) :
  permissionGranted (state w) = false →
  render (state (step w (UserMedia false))) = None ∧
  (∃ v, render (state (run [UserMedia false; UserMedia true] w)) = Some v ∧
        errorPanel v = Some (Str permissionError)) ∧
  (isRecording (state w) = false → isProcessing (state w) = false →
   webcamStream (refs w) = true →
   ∃ v, render (state (run [UserMedia false; UserMedia true; ClickStart] w)) = Some v ∧
        errorPanel v = None).
Proof.
  intros Hg. split; [| split].
  - simpl. unfold render. simpl. rewrite Hg. reflexivity.
  - unfold render. simpl. eauto.
  - intros Hr Hp Hs.
    change (run [UserMedia false; UserMedia true; ClickStart] w)
      with (step (run [UserMedia false; UserMedia true] w) ClickStart).
    simpl. unfold startEnabled. simpl. rewrite Hr, Hp. simpl.
    unfold startRecording. simpl. rewrite Hs. simpl.
    unfold render. simpl. eauto.
Qed.

(** X17 on an input: a fresh mount, refused and then granted. *)
Lemma permission_error_outlives_the_grant_witness :
  ∃ v, render (state (run [UserMedia false; UserMedia true]
                        (mount demoEnv connecting true))) = Some v ∧
       errorPanel v = Some (Str permissionError).
Proof.
  apply (permission_error_outlives_the_grant (mount demoEnv connecting true)).
  reflexivity.
Defined.

(** ** A whole session on the streaming channel *)

Lemma forEach_once m c cs s :
  forEachCallback (λ _ m s, commit (handleMessage m) s) m (c :: cs) s
  = commit (handleMessage m) s.
Proof.
  change (forEachCallback _ m (c :: cs) s)
    with (forEachCallback (λ _ m s, commit (handleMessage m) s) m cs
            (commit (handleMessage m) s)).
  apply forEach_after_one.
Qed.

Lemma run_messages ms w :
  messageCallbacks (provider w) ≠ [] →
  run (map SocketMessage ms) w = with_state (deliver ms (state w)) w.
Proof.
  intros Hne. revert w Hne. induction ms as [| m ms IH]; intros w Hne.
  - destruct w; reflexivity.
  - change (map SocketMessage (m :: ms)) with (SocketMessage m :: map SocketMessage ms).
    rewrite run_cons. simpl step.
    destruct (messageCallbacks (provider w)) as [| c cs] eqn:Hcs; [contradiction |].
    rewrite forEach_once, IH by (simpl; rewrite Hcs; discriminate).
    reflexivity.
Qed.

Lemma deliver_results_error ms s :
  Forall (λ m, isPartial m ∨ isFinal m) ms → error (deliver ms s) = error s.
Proof.
  intros Hall. revert s.
  induction Hall as [| m ms Hm _ IH]; intros s; [reflexivity |].
  change (deliver (m :: ms) s) with (deliver ms (commit (handleMessage m) s)).
  rewrite IH. destruct Hm as [Hm | Hm].
  - rewrite (handleMessage_partial m Hm). reflexivity.
  - rewrite (handleMessage_final m Hm). reflexivity.
Qed.

(** X21. A session on the streaming channel, for a component whose closure
    holds a socket and saw it connected: the clip that was read is emitted
    once on that socket, as a [message] of type [translation_request] with
    the clip and the two languages under [data], and no HTTP request is
    made. Partial results followed by the final one then leave the
    component idle with the final data as its projection, no error, and
    the Start button live. *)
Theorem streaming_session_returns_to_idle
    (w : World) (s : SocketId) (chunks : list Blob) (result : Value)
    (partials : list Obj) (final : Obj) :
  startEnabled (state w) = true →
  webcamStream (refs w) = true →
  closure w = {| ctx_socket := Some s; ctx_isConnected := true |} →
  reads w = [] →
  messageCallbacks (provider w) ≠ [] →
  Forall isPartial partials →
  isFinal final →
  wire (run (recording (length (recorders w)) chunks ++ [ReaderLoaded result]) w)
  = wire w ++ [(s, [("type", Str "translation_request");
                    ("data", Object [("video_data", result);
                                     ("source_language", Str "ASL");
                                     ("target_language", Str "en")])])] ∧
  fetches (run (recording (length (recorders w)) chunks ++ [ReaderLoaded result]) w)
  = fetches w ∧
  state (run (recording (length (recorders w)) chunks ++ [ReaderLoaded result]
              ++ map SocketMessage (partials ++ [final])) w)
  = {| isRecording := false; isProcessing := false;
       translationResult := prop final "data"; error := Null;
       permissionGranted := true |}.
Proof.
  intros Hstart Hstream Hclosure Hreads Hsubs Hpartials Hfinal.
  assert (Hsent : run (recording (length (recorders w)) chunks ++ [ReaderLoaded result]) w
                  = with_wire
                      (wire w ++ [(s, [("type", Str "translation_request");
                                       ("data",
                                        Object [("video_data", result);
                                                ("source_language", Str "ASL");
                                                ("target_language", Str "en")])])])
                      (with_reads []
                         (with_recorders (recorders w ++ [Inactive])
                            (with_refs {| webcamStream := true;
                                          mediaRecorderRef := Some (length (recorders w));
                                          recordedChunks := kept chunks |}
                               (with_state {| isRecording := false; isProcessing := true;
                                              translationResult := Null; error := Null;
                                              permissionGranted := true |} w))))).
  { rewrite run_app, (run_recording w chunks Hstart Hstream).
    simpl. rewrite Hreads. simpl. unfold onloadend. simpl. rewrite Hclosure. reflexivity. }
  split; [rewrite Hsent; reflexivity |]. split; [rewrite Hsent; reflexivity |].
  rewrite app_assoc, run_app, Hsent, run_messages by exact Hsubs.
  simpl state.
  assert (Hflag : isProcessing (deliver (partials ++ [final])
                                  {| isRecording := false; isProcessing := true;
                                     translationResult := Null; error := Null;
                                     permissionGranted := true |}) = false).
  { rewrite deliver_app. unfold deliver at 1. simpl.
    rewrite (handleMessage_final final Hfinal). reflexivity. }
  assert (Hdata : translationResult (deliver (partials ++ [final])
                                       {| isRecording := false; isProcessing := true;
                                          translationResult := Null; error := Null;
                                          permissionGranted := true |})
                  = prop final "data").
  { rewrite deliver_app. unfold deliver at 1. simpl.
    rewrite (handleMessage_final final Hfinal). reflexivity. }
  assert (Herr : error (deliver (partials ++ [final])
                          {| isRecording := false; isProcessing := true;
                             translationResult := Null; error := Null;
                             permissionGranted := true |}) = Null).
  { rewrite deliver_results_error; [reflexivity |].
    apply Forall_app. split.
    - eapply Forall_impl; [exact Hpartials | intros m Hm; left; exact Hm].
    - constructor; [right; exact Hfinal | constructor]. }
  assert (Hrest : ∀ ms st,
             isRecording (deliver ms st) = isRecording st ∧
             permissionGranted (deliver ms st) = permissionGranted st).
  { clear. intros ms. induction ms as [| m ms IH]; intros st; [split; reflexivity |].
    change (deliver (m :: ms) st) with (deliver ms (commit (handleMessage m) st)).
    destruct (IH (commit (handleMessage m) st)) as [-> ->].
    unfold handleMessage.
    repeat match goal with |- context [if ?b then _ else _] => destruct b end;
      split; reflexivity. }
  destruct (Hrest (partials ++ [final])
              {| isRecording := false; isProcessing := true; translationResult := Null;
                 error := Null; permissionGranted := true |}) as [Hrec Hperm].
  destruct (deliver (partials ++ [final]) _) as [r p t e g].
  simpl in *. congruence.
Qed.

(** X21 on an input: the scenario of two partials and a final result, for
    a component that mounted connected. *)
Lemma streaming_session_returns_to_idle_witness :
  translationResult
    (state (run (recording 0 ["clip"] ++ [ReaderLoaded clip]
                 ++ map SocketMessage
                      ([resultMessage "partial_translation" hello;
                        resultMessage "partial_translation" helloWorld]
                       ++ [resultMessage "translation_result" helloWorldFinal]))
              (run [UserMedia true] (mount demoEnv connected true))))
  = toValue helloWorldFinal.
Proof.
  pose proof (streaming_session_returns_to_idle
                (run [UserMedia true] (mount demoEnv connected true)) 0 ["clip"] clip
                [resultMessage "partial_translation" hello;
                 resultMessage "partial_translation" helloWorld]
                (resultMessage "translation_result" helloWorldFinal)
                eq_refl eq_refl eq_refl eq_refl) as Hsession.
  destruct Hsession as (_ & _ & Hstate).
  - discriminate.
  - repeat constructor.
  - reflexivity.
  - exact (f_equal translationResult Hstate).
Defined.

(** * The providers *)

Import WebSocketLifecycle.

(** ** The socket of the provider *)

Lemma runCleanup_inv n :
  netInv n →
  netInv (runCleanup n) ∧ socket (provider (runCleanup n)) = None ∧
  isConnected (provider (runCleanup n)) = false ∧
  length (sockets (runCleanup n)) = length (sockets n).
Proof.
  intros Hn. pose proof Hn as (Hc & Hopen & Hconn). unfold runCleanup.
  destruct (cleanup n) as [s |] eqn:Hcl.
  - split; [| repeat split; simpl; apply length_insert].
    split; [reflexivity |]. split; [| simpl; discriminate].
    intros s'. simpl. split; [| discriminate].
    intros Hlook. exfalso.
    assert (Hs : sockets n !! s = Some Open) by (apply Hopen; congruence).
    destruct (decide (s' = s)) as [-> | Hne].
    + rewrite list_lookup_insert_eq in Hlook; [discriminate |].
      eapply lookup_lt_Some; eassumption.
    + rewrite list_lookup_insert_ne in Hlook by congruence.
      apply Hopen in Hlook. congruence.
  - assert (Hnone : socket (provider n) = None) by congruence.
    split; [exact Hn |].
    split; [exact Hnone |]. split; [| reflexivity].
    destruct (isConnected (provider n)); [| reflexivity].
    destruct (Hconn eq_refl) as [s Hs]. congruence.
Qed.

Lemma runEffect_inv user n :
  netInv n → socket (provider n) = None → netInv (runEffect user n).
Proof.
  intros Hn Hnone. pose proof Hn as (Hc & Hopen & Hconn). unfold runEffect.
  destruct (truthy user); [| exact Hn].
  split; [reflexivity |]. split; [| intros _; simpl; eauto].
  intros s. simpl. split.
  - intros Hlook. destruct (decide (s < length (sockets n))) as [Hlt | Hge].
    + rewrite lookup_app_l in Hlook by exact Hlt.
      apply Hopen in Hlook. congruence.
    + apply lookup_lt_Some in Hlook. rewrite length_app in Hlook. simpl in Hlook.
      f_equal. lia.
  - intros [= <-]. rewrite lookup_app_r by lia. rewrite Nat.sub_diag. reflexivity.
Qed.

Lemma netStep_inv n e : netInv n → netInv (netStep n e).
Proof.
  intros Hn. destruct e as [user | | s | s]; simpl.
  - destruct (runCleanup_inv n Hn) as (Hinv & Hnone & _).
    apply runEffect_inv; assumption.
  - apply (runCleanup_inv n Hn).
  - destruct (sockets n !! s) as [[] |] eqn:Hs; try exact Hn.
    destruct Hn as (Hc & Hopen & Hconn).
    repeat split; simpl; try assumption; try apply Hopen.
    intros _. apply Hopen in Hs. rewrite Hs. eauto.
  - destruct (sockets n !! s) as [[] |] eqn:Hs; try exact Hn.
    destruct Hn as (Hc & Hopen & Hconn).
    repeat split; simpl; try assumption; try apply Hopen. discriminate.
Qed.

Lemma initialNet_inv : netInv initialNet.
Proof.
  repeat split; simpl; discriminate.
Qed.

Lemma lifetime_inv user es : netInv (lifetime user es).
Proof.
  unfold lifetime.
  assert (Hrun : ∀ es n, netInv n → netInv (netRun es n)).
  { clear. intros es. induction es as [| e es IH]; intros n Hn; [exact Hn |].
    apply (IH (netStep n e)), netStep_inv, Hn. }
  apply Hrun, runEffect_inv; [apply initialNet_inv | reflexivity].
Qed.

(** X8. Through the life of the provider, whatever the user and the
    events: the only socket that is open is the one the provider holds, and
    the provider is connected only while it holds one. So the [socket]
    test of [sendMessage] never decides: a message is emitted exactly when
    [isConnected] is set. *)
Theorem connected_only_with_the_open_socket (user : Value) (es : list NetEvent) :
  (∀ s, sockets (lifetime user es) !! s = Some Open ↔
        socket (provider (lifetime user es)) = Some s) ∧
  (isConnected (provider (lifetime user es)) = true →
     is_Some (socket (provider (lifetime user es)))) ∧
  (∀ type data wire,
     sendMessage (contextValue (provider (lifetime user es))) type data wire ≠ wire ↔
     isConnected (provider (lifetime user es)) = true).
Proof.
  destruct (lifetime_inv user es) as (_ & Hopen & Hconn).
  split; [exact Hopen |]. split; [exact Hconn |].
  intros type data wire. unfold sendMessage, contextValue. simpl.
  destruct (isConnected (provider (lifetime user es))) eqn:Hc.
  - destruct (Hconn eq_refl) as [s Hs]. rewrite Hs. split; [reflexivity |].
    intros _ Heq. apply (f_equal length) in Heq.
    rewrite length_app in Heq. simpl in Heq. lia.
  - destruct (socket (provider (lifetime user es)));
      split; try discriminate; intros H; destruct (H eq_refl).
Qed.

(** X8 on an input: a user signs in, the socket connects, and a message is
    emitted on it. *)
Lemma connected_only_with_the_open_socket_witness :
  sendMessage (contextValue (provider (lifetime (Object [("id", Str "u1")]) [Connect 0])))
    "translation_request" Null []
  ≠ [].
Proof.
  apply (connected_only_with_the_open_socket (Object [("id", Str "u1")]) [Connect 0]).
  reflexivity.
Defined.

(** X9. When the user changes, also from one signed-in user to another,
    the connection is dropped: the socket the provider held is closed and
    [isConnected] is cleared. If the new user is falsy (after [logout], for
    one) the provider holds no socket and none is open; otherwise it holds
    a socket that [io] has just made, which is the only open one. *)
Theorem user_change_replaces_the_socket
    (user : Value) (es : list NetEvent) (next : Value) :
  isConnected (provider (netStep (lifetime user es) (UserChanged next))) = false ∧
  (∀ s, socket (provider (lifetime user es)) = Some s →
        sockets (netStep (lifetime user es) (UserChanged next)) !! s = Some Closed) ∧
  (truthy next = false →
     socket (provider (netStep (lifetime user es) (UserChanged next))) = None ∧
     ∀ s, sockets (netStep (lifetime user es) (UserChanged next)) !! s ≠ Some Open) ∧
  (truthy next = true →
     socket (provider (netStep (lifetime user es) (UserChanged next)))
     = Some (length (sockets (lifetime user es))) ∧
     ∀ s, sockets (netStep (lifetime user es) (UserChanged next)) !! s = Some Open →
          s = length (sockets (lifetime user es))).
Proof.
  pose proof (lifetime_inv user es) as Hn.
  destruct (runCleanup_inv _ Hn) as (Hinv & Hnone & Hdown & Hlen).
  pose proof (netStep_inv _ (UserChanged next) Hn) as (_ & Hopen' & _).
  simpl in *. split; [| split; [| split]].
  - unfold runEffect. destruct (truthy next); simpl; exact Hdown.
  - intros s Hs. destruct Hn as (Hc & Hopen & _).
    assert (Hcl : cleanup (lifetime user es) = Some s) by congruence.
    assert (Hlt : s < length (sockets (lifetime user es))).
    { eapply lookup_lt_Some. apply Hopen. exact Hs. }
    unfold runEffect, runCleanup. rewrite Hcl.
    destruct (truthy next); simpl.
    + rewrite lookup_app_l by (rewrite length_insert; exact Hlt).
      apply list_lookup_insert_eq, Hlt.
    + apply list_lookup_insert_eq, Hlt.
  - intros Hfalsy. unfold runEffect in *. rewrite Hfalsy in *.
    split; [exact Hnone |]. intros s Hs. apply Hopen' in Hs. congruence.
  - intros Htruthy. unfold runEffect in *. rewrite Htruthy in *. simpl in *.
    rewrite Hlen. split; [reflexivity |].
    intros s Hs. apply Hopen' in Hs. rewrite Hlen in Hs. congruence.
Qed.

(** X9 on an input: a connected user signs out. *)
Lemma user_change_replaces_the_socket_witness :
  socket (provider (netStep (lifetime (Object [("id", Str "u1")]) [Connect 0])
                      (UserChanged (AuthContext.user (AuthContext.logout
                                                        (AuthContext.initialAuth None))))))
  = None.
Proof.
  destruct (user_change_replaces_the_socket (Object [("id", Str "u1")]) [Connect 0]
              (AuthContext.user (AuthContext.logout (AuthContext.initialAuth None))))
    as (_ & _ & Hout & _).
  apply Hout. reflexivity.
Defined.

(** ** The authentication provider *)

Import AuthContext.

Lemma nonEmptyText_false v : nonEmptyText v = false ↔ v = Str "".
Proof.
  destruct v; simpl; try (split; [discriminate | congruence]).
  rewrite negb_false_iff, String.eqb_eq. split; congruence.
Qed.

(** X10. [verifyToken] always clears the loading flag and never
    navigates. When the response is ok and its body yields a user, it
    sets the user to that one and keeps the stored token. In every other
    case (the call fails, the status is not ok, the body cannot be read or
    has no user to read) it removes whatever token is stored at that
    moment and leaves the user as it is, signed in or not. Every outcome
    is one of the two. *)
Theorem verifyToken_keeps_or_removes_the_token (o : FetchOutcome) (a : Auth) :
  isLoading (verifyToken_settled o a) = false ∧
  pushed (verifyToken_settled o a) = pushed a ∧
  (∀ userData u, o = Response true (Some userData) →
     member userData "user" = Some u →
     user (verifyToken_settled o a) = u ∧
     token (verifyToken_settled o a) = token a) ∧
  (o = Rejected
   ∨ (∃ json, o = Response false json)
   ∨ o = Response true None
   ∨ (∃ userData, o = Response true (Some userData) ∧ member userData "user" = None) →
     token (verifyToken_settled o a) = None ∧
     user (verifyToken_settled o a) = user a) ∧
  ((∃ userData u, o = Response true (Some userData) ∧ member userData "user" = Some u)
   ∨ o = Rejected
   ∨ (∃ json, o = Response false json)
   ∨ o = Response true None
   ∨ (∃ userData, o = Response true (Some userData) ∧ member userData "user" = None)).
Proof.
  split; [reflexivity |].
  split; [destruct o as [| [] [userData |]]; simpl; try reflexivity;
          destruct (member userData "user"); reflexivity |].
  split; [| split].
  - intros userData u -> Hu. simpl. rewrite Hu. split; reflexivity.
  - intros [-> | [[json ->] | [-> | (userData & -> & Hu)]]]; simpl;
      rewrite ?Hu; split; reflexivity.
  - destruct o as [| [] [userData |]]; eauto 6.
    destruct (member userData "user") as [u |] eqn:Hu; [left | do 4 right]; eauto.
Qed.

(** X10 on inputs: the verification of a stored token answered with a
    user, and answered 401, for a provider that has just mounted. *)
Lemma verifyToken_keeps_or_removes_the_token_witness :
  (user (verifyToken_settled
           (Response true (Some (Object [("user", Object [("id", Str "u1")])])))
           (initialAuth (Some (Str "t0"))))
   = Object [("id", Str "u1")] ∧
   token (verifyToken_settled
            (Response true (Some (Object [("user", Object [("id", Str "u1")])])))
            (initialAuth (Some (Str "t0"))))
   = Some (Str "t0")) ∧
  (token (verifyToken_settled (Response false None) (initialAuth (Some (Str "t0")))) = None ∧
   user (verifyToken_settled (Response false None) (initialAuth (Some (Str "t0")))) = Null).
Proof.
  split.
  - destruct (verifyToken_keeps_or_removes_the_token
                (Response true (Some (Object [("user", Object [("id", Str "u1")])])))
                (initialAuth (Some (Str "t0")))) as (_ & _ & Hok & _).
    apply (Hok (Object [("user", Object [("id", Str "u1")])]) (Object [("id", Str "u1")]));
      reflexivity.
  - destruct (verifyToken_keeps_or_removes_the_token
                (Response false None) (initialAuth (Some (Str "t0"))))
      as (_ & _ & _ & Hfail & _).
    apply Hfail. right. left. exists None. reflexivity.
Defined.

(** X11. [login] and [loginBiometric] are one function but for the text
    of the failure, "Login failed" and "Biometric login failed". When the
    call fails the promise rejects with the failure of [fetch]; when the
    body cannot be read, with that of [json()]; when the status is not ok,
    with an [Error] whose message is the [detail] of the body when it is
    truthy and the fixed text otherwise, or with a TypeError when the body
    has nothing to read; when the response is ok and the body has nothing
    to read, with a TypeError. In each of these nothing is stored and
    nothing is navigated to: the state is what it was. When the response
    is ok and its body is an object, the promise resolves: the token
    stored is the [access_token] of the body and the user is its [user],
    whatever they are, and the route is /dashboard; the user counts as
    signed in only if that [user] is truthy. *)
Theorem sign_in_stores_what_the_body_has
    (failure : string) (o : FetchOutcome) (a : Auth) :
  ((signedIn failure o a).2 ≠ Resolved → (signedIn failure o a).1 = a) ∧
  (∀ error detail, o = Response false (Some error) →
     member error "detail" = Some detail →
     (signedIn failure o a).2
     = Threw (Error (if truthy detail then detail else Str failure))) ∧
  (∀ data access_token u, o = Response true (Some data) →
     member data "access_token" = Some access_token →
     member data "user" = Some u →
     (signedIn failure o a).2 = Resolved ∧
     token (signedIn failure o a).1 = Some access_token ∧
     user (signedIn failure o a).1 = u ∧
     pushed (signedIn failure o a).1 = pushed a ++ ["/dashboard"] ∧
     isAuthenticated (signedIn failure o a).1 = truthy u) ∧
  (o = Rejected → signedIn failure o a = (a, Threw FetchFailed)) ∧
  (∀ ok, o = Response ok None → signedIn failure o a = (a, Threw BodyUnreadable)) ∧
  (∀ error, o = Response false (Some error) →
     member error "detail" = None →
     signedIn failure o a = (a, Threw TypeError)) ∧
  (∀ error detail, o = Response false (Some error) →
     member error "detail" = Some detail →
     signedIn failure o a
     = (a, Threw (Error (if truthy detail then detail else Str failure)))) ∧
  (∀ data, o = Response true (Some data) →
     member data "access_token" = None ∨ member data "user" = None →
     signedIn failure o a = (a, Threw TypeError)) ∧
  (∀ data access_token u, o = Response true (Some data) →
     member data "access_token" = Some access_token →
     member data "user" = Some u →
     signedIn failure o a
     = ({| user := u; isLoading := isLoading a; token := Some access_token;
           pushed := pushed a ++ ["/dashboard"] |}, Resolved)) ∧
  (login_settled o a = signedIn "Login failed" o a ∧
   loginBiometric_settled o a = signedIn "Biometric login failed" o a).
Proof.
  split; [| split; [| split; [| split; [| split; [| split; [| split; [| split;
    [| split]]]]]]]].
  - destruct o as [| [] [data |]]; simpl; try reflexivity.
    destruct (member data "access_token"), (member data "user"); simpl;
      try reflexivity.
    intros H. destruct (H eq_refl).
  - intros error detail -> Hd. simpl. unfold refusal. rewrite Hd. reflexivity.
  - intros data access_token u -> Ht Hu. simpl. rewrite Ht, Hu. repeat split.
  - intros ->. reflexivity.
  - intros [] ->; reflexivity.
  - intros error -> Hd. simpl. unfold refusal. rewrite Hd. reflexivity.
  - intros error detail -> Hd. simpl. unfold refusal. rewrite Hd. reflexivity.
  - intros data -> [Hn | Hn]; simpl; rewrite Hn; [reflexivity |].
    destruct (member data "access_token"); reflexivity.
  - intros data access_token u -> Ht Hu. simpl. rewrite Ht, Hu. reflexivity.
  - split; reflexivity.
Qed.

(** X11 on inputs: a response that is ok with an empty object for a
    body: the login resolves, routes to /dashboard, and nobody is signed
    in; and a 401 whose body has an empty [detail]: the login rejects with
    the fixed text and the state is untouched. *)
Lemma sign_in_stores_what_the_body_has_witness :
  ((login_settled (Response true (Some (Object []))) (initialAuth None)).2 = Resolved ∧
   pushed (login_settled (Response true (Some (Object []))) (initialAuth None)).1
   = ["/dashboard"] ∧
   isAuthenticated (login_settled (Response true (Some (Object []))) (initialAuth None)).1
   = false) ∧
  login_settled (Response false (Some (Object [("detail", Str "")]))) (initialAuth None)
  = (initialAuth None, Threw (Error (Str "Login failed"))).
Proof.
  split.
  - destruct (sign_in_stores_what_the_body_has "Login failed"
                (Response true (Some (Object []))) (initialAuth None))
      as (_ & _ & Hok & _).
    destruct (Hok (Object []) Undefined Undefined eq_refl eq_refl eq_refl)
      as (Hres & _ & _ & Hpush & Hauth).
    split; [exact Hres |]. split; [exact Hpush | exact Hauth].
  - destruct (sign_in_stores_what_the_body_has "Login failed"
                (Response false (Some (Object [("detail", Str "")]))) (initialAuth None))
      as (_ & _ & _ & _ & _ & _ & Hrefused & _).
    exact (Hrefused (Object [("detail", Str "")]) (Str "") eq_refl eq_refl).
Defined.

(** X12. [refreshToken] makes no call when no token is stored or the
    stored one is empty. When its call has settled: a status that is not ok
    changes nothing, so the token that was refused stays in place; an ok
    response with an object for a body replaces the token and nothing
    else; a failed call or a body that cannot be read signs the user out.
    In no case does it throw or make the user anything but what it was or
    [null]. *)
Theorem refreshToken_replaces_keeps_or_signs_out (o : FetchOutcome) (a : Auth) :
  (refreshToken_start a = None ↔ token a = None ∨ token a = Some (Str "")) ∧
  (∀ json, o = Response false json → refreshToken_settled o a = a) ∧
  (∀ data access_token, o = Response true (Some data) →
     member data "access_token" = Some access_token →
     refreshToken_settled o a
     = {| user := user a; isLoading := isLoading a; token := Some access_token;
          pushed := pushed a |}) ∧
  (o = Rejected ∨ o = Response true None → refreshToken_settled o a = logout a) ∧
  (user (refreshToken_settled o a) = user a ∨ user (refreshToken_settled o a) = Null).
Proof.
  split; [| split; [| split; [| split]]].
  - unfold refreshToken_start. destruct (token a) as [t |]; [| split; auto].
    destruct (nonEmptyText t) eqn:Ht.
    + split; [discriminate |]. intros [H | [= ->]]; discriminate.
    + apply nonEmptyText_false in Ht as ->. split; auto.
  - intros json ->. reflexivity.
  - intros data access_token -> Ht. simpl. rewrite Ht. reflexivity.
  - intros [-> | ->]; reflexivity.
  - destruct o as [| [] [data |]]; simpl; auto.
    destruct (member data "access_token"); simpl; auto.
Qed.

(** X12 on an input: the service answers 401 to the refresh of a stored
    token. *)
Lemma refreshToken_replaces_keeps_or_signs_out_witness :
  token (refreshToken_settled (Response false None) (initialAuth (Some (Str "t0"))))
  = Some (Str "t0").
Proof.
  destruct (refreshToken_replaces_keeps_or_signs_out
              (Response false None) (initialAuth (Some (Str "t0"))))
    as (_ & Hkeep & _).
  rewrite (Hkeep None eq_refl). reflexivity.
Defined.

(** X13. The loading flag of the provider ends: at the mount when there
    is no token to verify (none stored, or the empty string), with no call
    made; otherwise one verification call is made with the stored token,
    the flag stays set while it is in flight and is cleared when it
    settles, however it settles. *)
Theorem loading_ends_at_mount_or_with_the_verification
    (stored : option Value) (o : FetchOutcome) :
  (stored = None ∨ stored = Some (Str "") →
     (onMount (initialAuth stored)).2 = [] ∧
     isLoading (onMount (initialAuth stored)).1 = false) ∧
  (∀ t, stored = Some t → t ≠ Str "" →
     (onMount (initialAuth stored)).2 = [verifyCall t] ∧
     isLoading (onMount (initialAuth stored)).1 = true ∧
     isLoading (verifyToken_settled o (onMount (initialAuth stored)).1) = false).
Proof.
  split.
  - intros [-> | ->]; split; reflexivity.
  - intros t -> Hne. unfold onMount. simpl.
    destruct (nonEmptyText t) eqn:Ht.
    + repeat split.
    + apply nonEmptyText_false in Ht. contradiction.
Qed.

(** X13 on an input: a stored token whose verification is refused. *)
Lemma loading_ends_at_mount_or_with_the_verification_witness :
  (onMount (initialAuth (Some (Str "t0")))).2 = [verifyCall (Str "t0")] ∧
  isLoading (verifyToken_settled (Response false None)
               (onMount (initialAuth (Some (Str "t0")))).1) = false.
Proof.
  destruct (loading_ends_at_mount_or_with_the_verification
              (Some (Str "t0")) (Response false None)) as (_ & Hsome).
  destruct (Hsome (Str "t0") eq_refl) as (Hcall & _ & Hdone); [discriminate |].
  split; [exact Hcall | exact Hdone].
Defined.

(** X14. After a registration whose response is ok, [register] calls
    [login] with the [email] and the [password] of [userData], a POST to
    /api/auth/login with the two in its body, and it ends as that login
    ends: a login that is answered with a token and a user leaves them
    stored and routes to /dashboard. It calls [login] only then. When the
    registration call fails, the promise rejects with the failure of
    [fetch]; when it is refused, with an [Error] whose message is the
    [detail] of the body when it is truthy and "Registration failed"
    otherwise, or with what reading the body threw; when [userData] has
    nothing to read, with a TypeError. In each of these no further call is
    made and the state is untouched. *)
Theorem register_signs_in_after_success
    (userData : Value) (o1 o2 : FetchOutcome) (a : Auth) :
  (∀ call, call ∈ (register_run userData o1 o2 a).2 →
     (∃ json, o1 = Response true json) ∧
     ∃ email password,
       member userData "email" = Some email ∧
       member userData "password" = Some password ∧
       call = loginCall email password ∧
       (register_run userData o1 o2 a).1 = login_settled o2 a) ∧
  ((register_run userData o1 o2 a).2 = [] →
     (register_run userData o1 o2 a).1.1 = a ∧
     (register_run userData o1 o2 a).1.2 ≠ Resolved) ∧
  ((register_run userData o1 o2 a).1.2 = Resolved →
     (∃ json, o1 = Response true json) ∧ (login_settled o2 a).2 = Resolved) ∧
  (∀ json email password, o1 = Response true json →
     member userData "email" = Some email →
     member userData "password" = Some password →
     register_run userData o1 o2 a
     = (login_settled o2 a,
        [{| path := "/api/auth/login"; verb := "POST"; bearer := None;
            payload := Some (Object [("email", email); ("password", password)]) |}])) ∧
  (∀ json email password data access_token u, o1 = Response true json →
     member userData "email" = Some email →
     member userData "password" = Some password →
     o2 = Response true (Some data) →
     member data "access_token" = Some access_token →
     member data "user" = Some u →
     (register_run userData o1 o2 a).1
     = ({| user := u; isLoading := isLoading a; token := Some access_token;
           pushed := pushed a ++ ["/dashboard"] |}, Resolved)) ∧
  (o1 = Rejected → register_run userData o1 o2 a = (a, Threw FetchFailed, [])) ∧
  (o1 = Response false None →
     register_run userData o1 o2 a = (a, Threw BodyUnreadable, [])) ∧
  (∀ error, o1 = Response false (Some error) →
     member error "detail" = None →
     register_run userData o1 o2 a = (a, Threw TypeError, [])) ∧
  (∀ error detail, o1 = Response false (Some error) →
     member error "detail" = Some detail →
     register_run userData o1 o2 a
     = (a, Threw (Error (if truthy detail then detail else Str "Registration failed")),
        [])) ∧
  (∀ json, o1 = Response true json →
     member userData "email" = None ∨ member userData "password" = None →
     register_run userData o1 o2 a = (a, Threw TypeError, [])).
Proof.
  split; [| split; [| split]].
  - unfold register_run, register_settled.
    destruct o1 as [| [] json]; simpl;
      try (intros call Hin; apply elem_of_nil in Hin; destruct Hin).
    destruct (member userData "email") as [email |] eqn:He;
      [destruct (member userData "password") as [password |] eqn:Hp |]; simpl;
      try (intros call Hin; apply elem_of_nil in Hin; destruct Hin).
    intros call Hin. apply list_elem_of_singleton in Hin as ->.
    split; [eauto |]. exists email, password. repeat split.
  - unfold register_run, register_settled.
    destruct o1 as [| [] json]; simpl;
      try (intros _; split; [reflexivity | discriminate]).
    destruct (member userData "email") as [email |];
      [destruct (member userData "password") as [password |] |]; simpl;
      try (intros _; split; [reflexivity | discriminate]).
    discriminate.
  - unfold register_run, register_settled.
    destruct o1 as [| [] json]; simpl; try discriminate.
    destruct (member userData "email") as [email |];
      [destruct (member userData "password") as [password |] |]; simpl;
      try discriminate.
    intros Hres. split; [eauto | exact Hres].
  - split; [| split; [| split; [| split; [| split; [| split]]]]].
    + intros json email password -> He Hp. unfold register_run, register_settled.
      rewrite He, Hp. reflexivity.
    + intros json email password data access_token u -> He Hp -> Ht Hu.
      unfold register_run, register_settled. rewrite He, Hp. simpl.
      rewrite Ht, Hu. reflexivity.
    + intros ->. reflexivity.
    + intros ->. reflexivity.
    + intros error -> Hd. unfold register_run, register_settled, refusal.
      rewrite Hd. reflexivity.
    + intros error detail -> Hd. unfold register_run, register_settled, refusal.
      rewrite Hd. reflexivity.
    + intros json -> [Hn | Hn]; unfold register_run, register_settled; rewrite Hn;
        [reflexivity |].
      destruct (member userData "email"); reflexivity.
Qed.

(** X14 on inputs: a registration that is accepted, and the login that
    follows it answered with a token and a user; and a registration that
    is refused. *)
Lemma register_signs_in_after_success_witness :
  register_run (Object [("email", Str "a@b.c"); ("password", Str "pw")])
    (Response true (Some (Object [])))
    (Response true (Some (Object [("access_token", Str "t1");
                                  ("user", Object [("id", Str "u1")])])))
    (initialAuth None)
  = ({| user := Object [("id", Str "u1")]; isLoading := true; token := Some (Str "t1");
        pushed := ["/dashboard"] |}, Resolved,
     [{| path := "/api/auth/login"; verb := "POST"; bearer := None;
         payload := Some (Object [("email", Str "a@b.c"); ("password", Str "pw")]) |}]) ∧
  (register_run (Object [("email", Str "a@b.c"); ("password", Str "pw")])
     (Response false (Some (Object [("detail", Str "Email taken")])))
     (Response true (Some (Object []))) (initialAuth None))
  = (initialAuth None, Threw (Error (Str "Email taken")), []).
Proof.
  split.
  - destruct (register_signs_in_after_success
                (Object [("email", Str "a@b.c"); ("password", Str "pw")])
                (Response true (Some (Object [])))
                (Response true (Some (Object [("access_token", Str "t1");
                                              ("user", Object [("id", Str "u1")])])))
                (initialAuth None)) as (_ & _ & _ & Hcall & _).
    exact (Hcall (Some (Object [])) (Str "a@b.c") (Str "pw") eq_refl eq_refl eq_refl).
  - destruct (register_signs_in_after_success
                (Object [("email", Str "a@b.c"); ("password", Str "pw")])
                (Response false (Some (Object [("detail", Str "Email taken")])))
                (Response true (Some (Object []))) (initialAuth None))
      as (_ & _ & _ & _ & _ & _ & _ & _ & Hrefused & _).
    exact (Hrefused (Object [("detail", Str "Email taken")]) (Str "Email taken")
             eq_refl eq_refl).
Defined.

(** * The accessibility overlay *)

Import Dom AccessibilityOverlay.

Lemma elem_of_add token t tokens : t ∈ add token tokens ↔ t = token ∨ t ∈ tokens.
Proof.
  unfold add. destruct (decide (token ∈ tokens)) as [Hin | Hnot].
  - split; [auto | intros [-> | H]; assumption].
  - rewrite elem_of_app, list_elem_of_singleton. tauto.
Qed.

Lemma elem_of_remove token t tokens : t ∈ remove token tokens ↔ t ≠ token ∧ t ∈ tokens.
Proof. unfold remove. rewrite list_elem_of_filter. tauto. Qed.

Lemma elem_of_setClass flag token t tokens :
  t ∈ setClass flag token tokens ↔
  (t = token ∧ truthy flag = true) ∨ (t ≠ token ∧ t ∈ tokens).
Proof.
  unfold setClass. destruct (truthy flag).
  - rewrite elem_of_add. destruct (decide (t = token)); intuition congruence.
  - rewrite elem_of_remove. intuition congruence.
Qed.

Lemma NoDup_setClass flag token tokens :
  NoDup tokens → NoDup (setClass flag token tokens).
Proof.
  intros Hnd. unfold setClass, add, remove. destruct (truthy flag).
  - destruct (decide (token ∈ tokens)) as [Hin | Hnot]; [exact Hnd |].
    apply NoDup_app. split; [exact Hnd |]. split.
    + intros t Ht Ht'. apply list_elem_of_singleton in Ht'. congruence.
    + apply NoDup_singleton.
  - apply NoDup_filter, Hnd.
Qed.

Lemma elem_of_applySettings s root t :
  t ∈ classList (applySettings s root) ↔
  (t = "colorblind-support" ∧ truthy (prop s "colorBlindSupport") = true) ∨
  (t = "enhanced-focus" ∧ truthy (prop s "focusIndicators") = true) ∨
  (t = "reduce-motion" ∧ truthy (prop s "reducedMotion") = true) ∨
  (t = "high-contrast" ∧ truthy (prop s "highContrast") = true) ∨
  (t ≠ "colorblind-support" ∧ t ≠ "enhanced-focus" ∧ t ≠ "reduce-motion" ∧
   t ≠ "high-contrast" ∧ t ∈ classList root).
Proof.
  unfold applySettings. simpl. rewrite !elem_of_setClass.
  destruct (decide (t = "colorblind-support")) as [-> | ?];
    [intuition (try discriminate; congruence) |].
  destruct (decide (t = "enhanced-focus")) as [-> | ?];
    [intuition (try discriminate; congruence) |].
  destruct (decide (t = "reduce-motion")) as [-> | ?];
    [intuition (try discriminate; congruence) |].
  destruct (decide (t = "high-contrast")) as [-> | ?];
    [intuition (try discriminate; congruence) |].
  intuition congruence.
Qed.

(** X15. After [applySettings], each of the four classes it manages is on
    the root element exactly when its setting is truthy, whatever the
    element carried before; every other class is there exactly when it was
    there before. Applying settings on top of earlier ones gives the
    classes of the later ones alone, and a class list without repeats
    stays so. *)
Theorem document_classes_follow_the_settings (s : Obj) (root : Root) :
  (∀ key token, (key, token) ∈ classOf →
     (token ∈ classList (applySettings s root) ↔ truthy (prop s key) = true)) ∧
  (∀ token, token ∉ classOf.*2 →
     (token ∈ classList (applySettings s root) ↔ token ∈ classList root)) ∧
  (∀ earlier token,
     token ∈ classList (applySettings s (applySettings earlier root)) ↔
     token ∈ classList (applySettings s root)) ∧
  (NoDup (classList root) → NoDup (classList (applySettings s root))).
Proof.
  split; [| split; [| split]].
  - intros key token Hin. rewrite elem_of_applySettings.
    unfold classOf in Hin.
    repeat (apply elem_of_cons in Hin as [[= -> ->] | Hin];
            [intuition (try discriminate; congruence) |]).
    apply elem_of_nil in Hin. destruct Hin.
  - intros token Hnot. rewrite elem_of_applySettings.
    unfold classOf in Hnot. simpl in Hnot.
    rewrite !not_elem_of_cons in Hnot.
    intuition congruence.
  - intros earlier token. rewrite !elem_of_applySettings. tauto.
  - intros Hnd. unfold applySettings. simpl.
    repeat apply NoDup_setClass. exact Hnd.
Qed.

(** X15 on an input: high contrast is switched on over a root element
    that carried the class already and another one. *)
Lemma document_classes_follow_the_settings_witness :
  "high-contrast"
  ∈ classList (applySettings (updateSetting "highContrast" (Bool true) defaultSettings)
                 {| classList := ["dark"; "high-contrast"]; fontSizeWrites := [] |}).
Proof.
  apply (document_classes_follow_the_settings
           (updateSetting "highContrast" (Bool true) defaultSettings)
           {| classList := ["dark"; "high-contrast"]; fontSizeWrites := [] |}
         ) with (key := "highContrast").
  - unfold classOf. apply list_elem_of_here.
  - reflexivity.
Defined.

Lemma prop_withProp prev key value k :
  prop (withProp prev key value) k = if String.eqb k key then value else prop prev k.
Proof.
  induction prev as [| [k' v'] rest IH]; simpl.
  - destruct (String.eqb k key); reflexivity.
  - destruct (String.eqb key k') eqn:Hkey; simpl.
    + apply String.eqb_eq in Hkey as <-.
      destruct (String.eqb k key); reflexivity.
    + rewrite IH. destruct (String.eqb k key) eqn:Hk; [| reflexivity].
      apply String.eqb_eq in Hk as ->. rewrite Hkey. reflexivity.
Qed.

(** X16. [updateSetting] changes what one key reads and nothing else. On
    the page, updating [screenReader] changes nothing at all, updating
    [fontSize] changes no class, and updating the setting of a class puts
    that class on the root element exactly when the new value is truthy
    and leaves every other class as the settings before had it. *)
Theorem one_setting_moves_one_class
    (key : string) (value : Value) (prev : Obj) (root : Root) :
  (∀ k, prop (updateSetting key value prev) k
        = if String.eqb k key then value else prop prev k) ∧
  (key = "screenReader" →
     applySettings (updateSetting key value prev) root = applySettings prev root) ∧
  (key = "fontSize" →
     classList (applySettings (updateSetting key value prev) root)
     = classList (applySettings prev root)) ∧
  (∀ token, (key, token) ∈ classOf →
     (token ∈ classList (applySettings (updateSetting key value prev) root) ↔
      truthy value = true) ∧
     ∀ other, other ≠ token →
       (other ∈ classList (applySettings (updateSetting key value prev) root) ↔
        other ∈ classList (applySettings prev root))).
Proof.
  split; [intros k; apply prop_withProp |]. split; [| split].
  - intros ->. unfold applySettings, updateSetting.
    rewrite !prop_withProp. reflexivity.
  - intros ->. unfold applySettings, updateSetting. simpl.
    rewrite !prop_withProp. reflexivity.
  - intros token Hin. unfold classOf in Hin. unfold updateSetting.
    repeat (apply elem_of_cons in Hin as [[= -> ->] | Hin];
            [split;
             [rewrite elem_of_applySettings, !prop_withProp; simpl;
              intuition (try discriminate; congruence)
             | intros other Hne; rewrite !elem_of_applySettings, !prop_withProp;
               simpl; intuition congruence] |]).
    apply elem_of_nil in Hin. destruct Hin.
Qed.

(** X16 on an input: the screen-reader switch is turned on. *)
Lemma one_setting_moves_one_class_witness :
  applySettings (updateSetting "screenReader" (Bool true) defaultSettings)
    {| classList := []; fontSizeWrites := [] |}
  = applySettings defaultSettings {| classList := []; fontSizeWrites := [] |}.
Proof.
  apply (one_setting_moves_one_class "screenReader" (Bool true) defaultSettings
           {| classList := []; fontSizeWrites := [] |}).
  reflexivity.
Defined.

(** * The popup of the extension *)

Import PinkSyncPopup.

Lemma hasKey_cons k k' v o :
  hasKey ((k', v) :: o) k = String.eqb k k' || hasKey o k.
Proof. reflexivity. Qed.

Lemma hasKey_false_not_elem o k : hasKey o k = false → k ∉ o.*1.
Proof.
  induction o as [| [k' v] o IH]; intros Hk; [apply not_elem_of_nil |].
  rewrite hasKey_cons in Hk. apply orb_false_iff in Hk as [Hne Hk].
  simpl. apply not_elem_of_cons. split; [| apply IH, Hk].
  intros ->. rewrite String.eqb_refl in Hne. discriminate.
Qed.

Lemma prop_spread a b k :
  NoDup b.*1 →
  prop (spread a b) k = if hasKey b k then prop b k else prop a k.
Proof.
  unfold spread. revert a. induction b as [| [k' v] b IH]; intros a Hnd; [reflexivity |].
  simpl in Hnd. apply NoDup_cons in Hnd as [Hfresh Hnd].
  rewrite hasKey_cons. simpl foldl. rewrite IH by exact Hnd.
  simpl. destruct (String.eqb k k') eqn:Hk; simpl.
  - apply String.eqb_eq in Hk as ->.
    destruct (hasKey b k') eqn:Hb.
    + exfalso. apply Hfresh. clear -Hb.
      induction b as [| [k v] b IH]; [discriminate |].
      rewrite hasKey_cons in Hb. simpl.
      destruct (String.eqb k' k) eqn:Hk.
      * apply String.eqb_eq in Hk as ->. apply list_elem_of_here.
      * apply list_elem_of_further, IH, Hb.
    + rewrite prop_withProp, String.eqb_refl. reflexivity.
  - destruct (hasKey b k); [reflexivity |].
    rewrite prop_withProp, Hk. reflexivity.
Qed.

(** X18. [loadSettings] leaves the settings alone when the storage
    rejects or holds no entry. Otherwise every key of the stored entry
    reads as stored and every other key reads as before, so the defaults
    fill in for what the entry lacks. A new popup over an entry that has
    every default key therefore reads, at every key, what the entry
    holds. *)
Theorem load_merges_the_stored_entry (rejects : bool) (p : Popup) :
  (rejects = true ∨ stored p = None → loadSettings rejects p = p) ∧
  (∀ saved, rejects = false → stored p = Some saved → NoDup saved.*1 →
     ∀ k, prop (settings (loadSettings rejects p)) k
          = if hasKey saved k then prop saved k else prop (settings p) k) ∧
  (∀ saved classes, NoDup saved.*1 →
     (∀ k, hasKey defaults k = true → hasKey saved k = true) →
     ∀ k, prop (settings (loadSettings false (newPopup (Some saved) classes))) k
          = prop saved k).
Proof.
  split; [| split].
  - unfold loadSettings. intros [-> | Hnone]; [reflexivity |].
    rewrite Hnone. destruct rejects; reflexivity.
  - intros saved -> Hs Hnd k. unfold loadSettings. rewrite Hs. simpl.
    apply prop_spread, Hnd.
  - intros saved classes Hnd Hall k. unfold loadSettings. simpl.
    rewrite prop_spread by exact Hnd.
    destruct (hasKey saved k) eqn:Hk; [reflexivity |].
    destruct (hasKey defaults k) eqn:Hd.
    + rewrite (Hall k Hd) in Hk. discriminate.
    + clear -Hk Hd.
      assert (Hmiss : ∀ o, hasKey o k = false → prop o k = Undefined).
      { induction o as [| [k' v] o IH]; intros Ho; [reflexivity |].
        rewrite hasKey_cons in Ho. apply orb_false_iff in Ho as [Hne Ho].
        simpl. rewrite Hne. apply IH, Ho. }
      rewrite (Hmiss defaults Hd), (Hmiss saved Hk). reflexivity.
Qed.

(** X18 on an input: an entry that lacks [fontSize] and has high contrast
    on. *)
Lemma load_merges_the_stored_entry_witness :
  prop (settings (loadSettings false
                    (newPopup (Some [("highContrast", Bool true)]) [])))
    "fontSize"
  = Number (QArith_base.Qmake 16 1).
Proof.
  destruct (load_merges_the_stored_entry false
              (newPopup (Some [("highContrast", Bool true)]) [])) as (_ & Hmerge & _).
  rewrite (Hmerge [("highContrast", Bool true)] eq_refl eq_refl).
  - reflexivity.
  - repeat constructor. apply not_elem_of_nil.
Defined.

(** X19. A click on a switch sets its setting to the negation of what it
    read as truthy and touches no other setting; a second click gives the
    boolean of what was there at first, so a boolean setting is back where
    it was. After the click the element of the switch has the class
    [active] exactly when the new setting is on, and one write of the new
    settings is in flight. *)
Theorem switch_click_toggles_one_setting (switchId : string) (p : Popup) :
  (∀ k, prop (settings (clickSwitch switchId p)) k
        = if String.eqb k switchId
          then Bool (negb (truthy (prop (settings p) switchId)))
          else prop (settings p) k) ∧
  (∀ k, prop (settings (clickSwitch switchId (clickSwitch switchId p))) k
        = if String.eqb k switchId
          then Bool (truthy (prop (settings p) switchId))
          else prop (settings p) k) ∧
  writes (clickSwitch switchId p)
  = writes p ++ [settings (clickSwitch switchId p)] ∧
  (switchId ∈ switches →
   ∀ classes, (switchId, classes) ∈ switchClasses p →
     ∃ classes', (switchId, classes') ∈ switchClasses (clickSwitch switchId p) ∧
                 ("active" ∈ classes' ↔ truthy (prop (settings p) switchId) = false)).
Proof.
  split; [| split; [| split]].
  - intros k. simpl. apply prop_withProp.
  - intros k. simpl. rewrite !prop_withProp, String.eqb_refl. simpl.
    destruct (String.eqb k switchId); [| reflexivity].
    rewrite negb_involutive. reflexivity.
  - reflexivity.
  - intros Hswitch classes Hin. simpl.
    exists (setClass (prop (withProp (settings p) switchId
                              (Bool (negb (truthy (prop (settings p) switchId)))))
                        switchId) "active" classes).
    split.
    + apply list_elem_of_fmap. exists (switchId, classes). simpl.
      rewrite decide_True by exact Hswitch. split; [reflexivity | exact Hin].
    + rewrite elem_of_setClass, prop_withProp, String.eqb_refl. simpl.
      destruct (truthy (prop (settings p) switchId)); simpl; intuition congruence.
Qed.

(** X19 on an input: the high-contrast switch of a new popup is clicked. *)
Lemma switch_click_toggles_one_setting_witness :
  ∃ classes', ("highContrast", classes')
              ∈ switchClasses (clickSwitch "highContrast"
                                 (newPopup None [("highContrast", ["switch"])])) ∧
              ("active" ∈ classes' ↔ truthy (prop defaults "highContrast") = false).
Proof.
  destruct (switch_click_toggles_one_setting "highContrast"
              (newPopup None [("highContrast", ["switch"])])) as (_ & _ & _ & Hdom).
  apply (Hdom (list_elem_of_here _ _) ["switch"]). apply list_elem_of_here.
Defined.

(** X20. The write to the storage carries the settings as they were when
    [saveSettings] was called, the message to the tab the settings as they
    are when it is sent. So when two switches are clicked before the first
    save has settled, the first save stores the settings after the first
    click and sends the tab the settings after both. *)
Theorem message_carries_the_settings_at_send_time
    (first second : string) (tab : nat) (p : Popup) :
  writes p = [] →
  stored (saveSettled (Tab tab) (clickSwitch second (clickSwitch first p)))
  = Some (settings (clickSwitch first p)) ∧
  applied (saveSettled (Tab tab) (clickSwitch second (clickSwitch first p)))
  = applied p ++ [(tab, settings (clickSwitch second (clickSwitch first p)))] ∧
  writes (saveSettled (Tab tab) (clickSwitch second (clickSwitch first p)))
  = [settings (clickSwitch second (clickSwitch first p))].
Proof.
  intros Hw. unfold saveSettled. simpl. rewrite Hw. simpl. repeat split.
Qed.

(** X20 on an input: high contrast, then reduced motion, on a new popup. *)
Lemma message_carries_the_settings_at_send_time_witness :
  prop (default [] (stored (saveSettled (Tab 7)
                              (clickSwitch "reducedMotion"
                                 (clickSwitch "highContrast" (newPopup None []))))))
    "reducedMotion"
  = Bool false.
Proof.
  destruct (message_carries_the_settings_at_send_time
              "highContrast" "reducedMotion" 7 (newPopup None []) eq_refl)
    as (Hstored & _).
  rewrite Hstored. reflexivity.
Defined.

(** * The dashboard *)

Import DashboardPage.

(** X22. After a login that resolved, with loading over: when the [user]
    of the body is truthy the dashboard does not redirect and asks for the
    statistics with the [access_token] that the login has just stored;
    when it is falsy (a body without [user], for one) no statistics are
    asked for and the dashboard, which the login navigated to, sends the
    browser on to /auth/login. *)
Theorem dashboard_after_login
    (failure : string) (data access_token u : Value) (a : Auth) :
  isLoading a = false →
  member data "access_token" = Some access_token →
  member data "user" = Some u →
  (truthy u = true →
     redirect (signedIn failure (Response true (Some data)) a).1
     = (signedIn failure (Response true (Some data)) a).1 ∧
     statsCall (signedIn failure (Response true (Some data)) a).1
     = Some {| path := "/api/dashboard/stats"; verb := "GET";
               bearer := Some access_token; payload := None |}) ∧
  (truthy u = false →
     pushed (redirect (signedIn failure (Response true (Some data)) a).1)
     = pushed a ++ ["/dashboard"; "/auth/login"] ∧
     statsCall (signedIn failure (Response true (Some data)) a).1 = None).
Proof.
  intros Hl Ht Hu. simpl. rewrite Ht, Hu. simpl.
  unfold redirect, statsCall, isAuthenticated. simpl. rewrite Hl. simpl.
  split; intros ->; simpl.
  - split; reflexivity.
  - rewrite <- app_assoc. split; reflexivity.
Qed.

(** X22 on an input: a login answered with an empty object. *)
Lemma dashboard_after_login_witness :
  pushed (redirect (login_settled (Response true (Some (Object [])))
                      (setIsLoading false (initialAuth None))).1)
  = ["/dashboard"; "/auth/login"].
Proof.
  destruct (dashboard_after_login "Login failed" (Object []) Undefined Undefined
              (setIsLoading false (initialAuth None)) eq_refl eq_refl eq_refl)
    as (_ & Hout).
  destruct (Hout eq_refl) as (Hpushed & _). exact Hpushed.
Defined.
